(** * Tuned-Mass-Damper simulator: the RK4 integrator of
      [src/services/physicsEngine.ts]

    The engine is two functions over JavaScript numbers: [evaluate], the
    derivative of the coupled two-mass system at a probe point, and
    [integrateRK4], one fixed step of the classic Runge-Kutta scheme.

    Both are embedded once, over an interface [Number] listing exactly the
    arithmetic the source uses, and read at two instances:
    - IEEE-754 binary64 ([FloatNumber]), what a JavaScript number is, with
      rounding, signed zeros, overflow, NaN and the infinities; what a call
      returns is stated there, or for every instance at once;
    - the real numbers ([RNumber]), the idealisation the specification
      speaks in ("all are real-valued scalars"); the equations of motion
      and the algebra of the scheme are stated there, under non-zero
      masses.  An identity over the reals is an identity of the formulas;
      the numbers the engine returns are rounded. *)

From Stdlib Require Import Bool Reals Lra Floats.

Declare Scope num_scope.
Delimit Scope num_scope with num.

(** ** The arithmetic of the source

    [physicsEngine.ts] uses [+], binary and unary [-], [*], [/], the
    literals [0], [0.5], [1.0], [2], [6.0], and [Math.sin], [Math.PI]. *)
Class Number (T : Type) : Type := {
  add : T -> T -> T;
  sub : T -> T -> T;
  mul : T -> T -> T;
  div : T -> T -> T;
  neg : T -> T;
  lit0 : T;
  lit0_5 : T;
  lit1 : T;
  lit2 : T;
  lit6 : T;
  Math_sin : T -> T;
  Math_PI : T
}.

Notation "x + y" := (add x y) : num_scope.
Notation "x - y" := (sub x y) : num_scope.
Notation "x * y" := (mul x y) : num_scope.
Notation "x / y" := (div x y) : num_scope.
Notation "- x" := (neg x) : num_scope.

(** ** Data model: [types.ts] *)

Record SystemParams (T : Type) : Type := {
  m1 : T;
  k1 : T;
  b1 : T;
  m2 : T;
  k2 : T;
  b2 : T;
  forceAmplitude : T;
  forceFrequency : T
}.

Record SimulationState (T : Type) : Type := {
  t : T;
  x1 : T;
  v1 : T;
  x2 : T;
  v2 : T
}.

Record Derivative (T : Type) : Type := {
  dx1 : T;
  dv1 : T;
  dx2 : T;
  dv2 : T
}.

(** The [const] locals of [evaluate] (lines 17-36), in the order the source
    binds them.  The probe point is written with a prime, as the source's
    locals [x1], [v1], [x2], [v2] shadow nothing but would clash with the
    fields of [SimulationState] here. *)
Record Locals (T : Type) : Type := {
  x1' : T;
  v1' : T;
  x2' : T;
  v2' : T;
  Force : T;
  springForce2 : T;
  dampingForce2 : T;
  F_net_1 : T;
  F_net_2 : T
}.

Arguments m1 {T} _. Arguments k1 {T} _. Arguments b1 {T} _.
Arguments m2 {T} _. Arguments k2 {T} _. Arguments b2 {T} _.
Arguments forceAmplitude {T} _. Arguments forceFrequency {T} _.
Arguments Build_SystemParams {T}.
Arguments t {T} _. Arguments x1 {T} _. Arguments v1 {T} _.
Arguments x2 {T} _. Arguments v2 {T} _.
Arguments Build_SimulationState {T}.
Arguments dx1 {T} _. Arguments dv1 {T} _.
Arguments dx2 {T} _. Arguments dv2 {T} _.
Arguments Build_Derivative {T}.
Arguments x1' {T} _. Arguments v1' {T} _. Arguments x2' {T} _.
Arguments v2' {T} _. Arguments Force {T} _. Arguments springForce2 {T} _.
Arguments dampingForce2 {T} _. Arguments F_net_1 {T} _.
Arguments F_net_2 {T} _.
Arguments Build_Locals {T}.

(** The error kinds the specification names.  The source declares none of
    them: they exist here only so that the specification's error clauses
    can be stated against the code. *)
Inductive StepError : Type :=
| InvalidParameter
| InvalidTimestep
| NonFiniteResult.

Inductive Result (A : Type) : Type :=
| Ok (a : A)
| Err (e : StepError).

Arguments Ok {A} a.
Arguments Err {A} e.

(** ** The engine: [services/physicsEngine.ts] *)

Section Engine.
Context {T : Type} {N : Number T}.
Local Open Scope num_scope.

(** Lines 17-36 of [evaluate]. *)
Definition evaluate_locals (state : SimulationState T) (t dt : T)
    (d : Derivative T) (params : SystemParams T) : Locals T :=
  let x1 := x1 state + dx1 d * dt in
  let v1 := v1 state + dv1 d * dt in
  let x2 := x2 state + dx2 d * dt in
  let v2 := v2 state + dv2 d * dt in
  let Force :=
    forceAmplitude params
    * Math_sin (lit2 * Math_PI * forceFrequency params * t) in
  let springForce2 := k2 params * (x2 - x1) in
  let dampingForce2 := b2 params * (v2 - v1) in
  let F_net_1 :=
    - k1 params * x1 - b1 params * v1
    + springForce2 + dampingForce2 + Force in
  let F_net_2 := - springForce2 - dampingForce2 in
  {| x1' := x1; v1' := v1; x2' := x2; v2' := v2;
     Force := Force;
     springForce2 := springForce2; dampingForce2 := dampingForce2;
     F_net_1 := F_net_1; F_net_2 := F_net_2 |}.

(** [evaluate]: the locals, then the returned object (lines 38-43). *)
Definition evaluate (state : SimulationState T) (t dt : T)
    (d : Derivative T) (params : SystemParams T) : Derivative T :=
  let l := evaluate_locals state t dt d params in
  {| dx1 := v1' l;
     dv1 := F_net_1 l / m1 params;
     dx2 := v2' l;
     dv2 := F_net_2 l / m2 params |}.

(** [integrateRK4], lines 46-68. *)
Definition integrateRK4 (state : SimulationState T) (dt : T)
    (params : SystemParams T) : SimulationState T :=
  let a :=
    evaluate state (t state) lit0
      {| dx1 := lit0; dv1 := lit0; dx2 := lit0; dv2 := lit0 |} params in
  let b := evaluate state (t state + dt * lit0_5) (dt * lit0_5) a params in
  let c := evaluate state (t state + dt * lit0_5) (dt * lit0_5) b params in
  let d := evaluate state (t state + dt) dt c params in
  let dxdt1 := (lit1 / lit6) * (dx1 a + lit2 * (dx1 b + dx1 c) + dx1 d) in
  let dvdt1 := (lit1 / lit6) * (dv1 a + lit2 * (dv1 b + dv1 c) + dv1 d) in
  let dxdt2 := (lit1 / lit6) * (dx2 a + lit2 * (dx2 b + dx2 c) + dx2 d) in
  let dvdt2 := (lit1 / lit6) * (dv2 a + lit2 * (dv2 b + dv2 c) + dv2 d) in
  {| t := t state + dt;
     x1 := x1 state + dxdt1 * dt;
     v1 := v1 state + dvdt1 * dt;
     x2 := x2 state + dxdt2 * dt;
     v2 := v2 state + dvdt2 * dt |}.

(** What a caller of [integrateRK4] observes, in the shape of the
    specification's [step : ... -> Result<SimulationState, Error>].  The
    body of [integrateRK4] has no [throw], no branch and no check: it is
    arithmetic on numbers, which never raises in JavaScript, so every call
    completes with the computed object. *)
Definition step (state : SimulationState T) (dt : T)
    (params : SystemParams T) : Result (SimulationState T) :=
  Ok (integrateRK4 state dt params).

(** [App.tsx]: the state the simulation starts from and is reset to. *)
Definition initialState : SimulationState T :=
  {| t := lit0; x1 := lit0; v1 := lit0; x2 := lit0; v2 := lit0 |}.

(** The driver loop of [App.tsx] ([animate]): one [integrateRK4] per tick,
    each fed the state the previous one returned. *)
Fixpoint run (n : nat) (state : SimulationState T) (dt : T)
    (params : SystemParams T) : SimulationState T :=
  match n with
  | O => state
  | S n' => run n' (integrateRK4 state dt params) dt params
  end.
End Engine.

(** ** The two readings of a JavaScript number *)

(** Real numbers. *)
#[export] Instance RNumber : Number R := {|
  add := Rplus; sub := Rminus; mul := Rmult; div := Rdiv; neg := Ropp;
  lit0 := 0%R; lit0_5 := 0.5%R; lit1 := 1%R; lit2 := 2%R; lit6 := 6%R;
  Math_sin := sin; Math_PI := PI
|}.

(** Binary64, the arithmetic JavaScript runs.  ECMAScript leaves [Math.sin]
    implementation-approximated, so it is a parameter; [Math.PI] is the
    double nearest to pi. *)
Definition FloatNumber (js_sin : float -> float) : Number float := {|
  add := PrimFloat.add; sub := PrimFloat.sub; mul := PrimFloat.mul;
  div := PrimFloat.div; neg := PrimFloat.opp;
  lit0 := 0%float; lit0_5 := 0.5%float; lit1 := 1%float; lit2 := 2%float;
  lit6 := 6%float;
  Math_sin := js_sin; Math_PI := 0x1.921fb54442d18p+1%float
|}.

(** [params] with another drive, as [handleChange] of
    [SimulationControl.tsx] builds it for the amplitude and the frequency
    slider: [{ ...params, forceAmplitude, forceFrequency }]. *)
Definition with_drive {T : Type} (params : SystemParams T)
    (amplitude frequency : T) : SystemParams T :=
  {| m1 := m1 params; k1 := k1 params; b1 := b1 params;
     m2 := m2 params; k2 := k2 params; b2 := b2 params;
     forceAmplitude := amplitude; forceFrequency := frequency |}.

(** ** Facts that hold in every arithmetic

    They are read off the data flow of [evaluate] and need no law of
    arithmetic, so they hold for reals and for binary64 alike. *)
Section Dataflow.
Context {T : Type} {N : Number T}.
Local Open Scope num_scope.

(** [integrateRK4] always hands back the object it computed. *)
Lemma step_returns (state : SimulationState T) (dt : T)
    (params : SystemParams T) :
  step state dt params = Ok (integrateRK4 state dt params).
Proof. reflexivity. Qed.

Lemma step_never_fails (state : SimulationState T) (dt : T)
    (params : SystemParams T) (e : StepError) :
  step state dt params <> Err e.
Proof. unfold step. discriminate. Qed.

(** The net force on body 2 reads the probe point, [k2] and [b2], and
    nothing else: not the time, not the drive, not [k1], [b1] or a mass. *)
Lemma F_net_2_frame (state : SimulationState T) (t t' dt : T)
    (d : Derivative T) (params params' : SystemParams T) :
  k2 params' = k2 params -> b2 params' = b2 params ->
  F_net_2 (evaluate_locals state t' dt d params')
  = F_net_2 (evaluate_locals state t dt d params).
Proof.
  intros Hk Hb. unfold evaluate_locals. cbn [F_net_2].
  now rewrite Hk, Hb.
Qed.

(** C6.  The drive force computed in [evaluate] is
    amplitude * sin(2 pi frequency t), in the arithmetic at hand (over the
    reals [Math_sin] and [Math_PI] are the sine and pi); it is a function
    of the time, the amplitude and the frequency alone.  The acceleration
    that [evaluate] returns for body 1 is the net force with that term as
    its last summand, divided by m1; the acceleration returned for body 2
    has no such term, and neither it nor the two returned velocities
    change when the time or the drive parameters do. *)
Theorem drive_force_on_body1_only
    (state : SimulationState T) (time dt_offset : T) (d : Derivative T)
    (params : SystemParams T) :
  let force :=
    forceAmplitude params
    * Math_sin (lit2 * Math_PI * forceFrequency params * time) in
  let tx1 := x1 state + dx1 d * dt_offset in
  let tv1 := v1 state + dv1 d * dt_offset in
  let tx2 := x2 state + dx2 d * dt_offset in
  let tv2 := v2 state + dv2 d * dt_offset in
  Force (evaluate_locals state time dt_offset d params) = force
  /\ (forall state' dt_offset' d' params',
        forceAmplitude params' = forceAmplitude params ->
        forceFrequency params' = forceFrequency params ->
        Force (evaluate_locals state' time dt_offset' d' params') = force)
  /\ dv1 (evaluate state time dt_offset d params)
     = (- k1 params * tx1 - b1 params * tv1
        + k2 params * (tx2 - tx1) + b2 params * (tv2 - tv1) + force)
       / m1 params
  /\ dv2 (evaluate state time dt_offset d params)
     = (- (k2 params * (tx2 - tx1)) - b2 params * (tv2 - tv1)) / m2 params
  /\ (forall time' amplitude frequency,
        let params' := with_drive params amplitude frequency in
        dv2 (evaluate state time' dt_offset d params')
        = dv2 (evaluate state time dt_offset d params)
        /\ dx2 (evaluate state time' dt_offset d params')
           = dx2 (evaluate state time dt_offset d params)
        /\ dx1 (evaluate state time' dt_offset d params')
           = dx1 (evaluate state time dt_offset d params)).
Proof.
  intros force tx1 tv1 tx2 tv2.
  split; [reflexivity |]. split.
  - intros state' dt_offset' d' params' Ha Hf.
    unfold evaluate_locals; cbn [Force]. now rewrite Ha, Hf.
  - split; [reflexivity |]. split; [reflexivity |].
    intros time' amplitude frequency params'. repeat split.
Qed.

(** The time advances by [dt], whatever the numbers are. *)
Lemma integrateRK4_time (state : SimulationState T) (dt : T)
    (params : SystemParams T) :
  t (integrateRK4 state dt params) = t state + dt.
Proof. reflexivity. Qed.

End Dataflow.

(** ** The step in the words of the specification

    Section 4.3 of the specification writes the update with the half step
    dt/2 and the average (k1 + 2*k2 + 2*k3 + k4) / 6.  [classicRK4] follows
    those words, in the arithmetic at hand, to be compared with
    [integrateRK4], which follows the source.  The stages that the
    specification calls k1..k4 are [s1]..[s4] here, [k1] and [k2] being
    stiffnesses. *)
Section Specification.
Context {T : Type} {N : Number T}.
Local Open Scope num_scope.

Definition classicRK4 (state : SimulationState T) (dt : T)
    (params : SystemParams T) : SimulationState T :=
  let zero := {| dx1 := lit0; dv1 := lit0; dx2 := lit0; dv2 := lit0 |} in
  let s1 := evaluate state (t state) lit0 zero params in
  let s2 := evaluate state (t state + dt / lit2) (dt / lit2) s1 params in
  let s3 := evaluate state (t state + dt / lit2) (dt / lit2) s2 params in
  let s4 := evaluate state (t state + dt) dt s3 params in
  let avg (component : Derivative T -> T) :=
    (component s1 + lit2 * component s2 + lit2 * component s3
     + component s4) / lit6 in
  {| t := t state + dt;
     x1 := x1 state + avg dx1 * dt;
     v1 := v1 state + avg dv1 * dt;
     x2 := x2 state + avg dx2 * dt;
     v2 := v2 state + avg dv2 * dt |}.
End Specification.

(** ** Reading over the reals *)

Module Real.
Local Open Scope R_scope.

(** [constants.ts]. *)
Definition DEFAULT_PARAMS : SystemParams R :=
  {| m1 := 50; k1 := 2000; b1 := 10; m2 := 5; k2 := 200; b2 := 15;
     forceAmplitude := 50; forceFrequency := 1.0 |}.

Definition PHYSICS_DT : R := 0.01.

(** The default system with the drive switched off (amplitude slider at
    its minimum, 0). *)
Definition UNDRIVEN_PARAMS : SystemParams R :=
  with_drive DEFAULT_PARAMS 0 1.0.

(** An arbitrary state in motion, used to instantiate statements. *)
Definition movingState : SimulationState R :=
  {| t := 0.25; x1 := 0.01; v1 := -0.2; x2 := 0.03; v2 := 0.1 |}.

Definition zeroDerivative : Derivative R :=
  {| dx1 := 0; dv1 := 0; dx2 := 0; dv2 := 0 |}.

(** *** The derivative evaluator *)

(** C3.  For masses m1 > 0 and m2 > 0, [evaluate] forms the trial state
    x1' = x1 + dx1 * dt_offset (and likewise v1', x2', v2') and returns
    exactly dx1 = v1', dv1 = F1 / m1, dx2 = v2', dv2 = F2 / m2, with
    F1 = -k1 x1' - b1 v1' + k2 (x2' - x1') + b2 (v2' - v1') + force(t) and
    F2 = -(k2 (x2' - x1') + b2 (v2' - v1')). *)
Theorem evaluate_equations_of_motion
    (state : SimulationState R) (time dt_offset : R) (d : Derivative R)
    (params : SystemParams R) :
  m1 params > 0 -> m2 params > 0 ->
  let tx1 := x1 state + dx1 d * dt_offset in
  let tv1 := v1 state + dv1 d * dt_offset in
  let tx2 := x2 state + dx2 d * dt_offset in
  let tv2 := v2 state + dv2 d * dt_offset in
  let force :=
    forceAmplitude params * sin (2 * PI * forceFrequency params * time) in
  let F1 :=
    - k1 params * tx1 - b1 params * tv1
    + k2 params * (tx2 - tx1) + b2 params * (tv2 - tv1) + force in
  let F2 := - (k2 params * (tx2 - tx1) + b2 params * (tv2 - tv1)) in
  evaluate state time dt_offset d params
  = {| dx1 := tv1; dv1 := F1 / m1 params;
       dx2 := tv2; dv2 := F2 / m2 params |}.
Proof.
  intros _ _ tx1 tv1 tx2 tv2 force F1 F2.
  unfold evaluate, evaluate_locals; cbn.
  f_equal.
  subst F2 tx1 tv1 tx2 tv2.
  unfold Rdiv; f_equal; ring.
Qed.

Lemma evaluate_equations_of_motion_witness :
  m1 DEFAULT_PARAMS > 0 /\ m2 DEFAULT_PARAMS > 0 /\
  dx1 (evaluate movingState 0.25 0.005 zeroDerivative DEFAULT_PARAMS) = -0.2.
Proof.
  assert (H1 : m1 DEFAULT_PARAMS > 0) by (cbn; lra).
  assert (H2 : m2 DEFAULT_PARAMS > 0) by (cbn; lra).
  split; [exact H1 | split; [exact H2 |]].
  rewrite (evaluate_equations_of_motion movingState 0.25 0.005
             zeroDerivative DEFAULT_PARAMS H1 H2).
  cbn. lra.
Defined.

(** The drive force over the reals, with the sine and pi themselves. *)
Lemma Force_real (state : SimulationState R) (time dt_offset : R)
    (d : Derivative R) (params : SystemParams R) :
  Force (evaluate_locals state time dt_offset d params)
  = forceAmplitude params * sin (2 * PI * forceFrequency params * time).
Proof. reflexivity. Qed.

(** C8.  In one call of [evaluate] (m1 > 0, m2 > 0) the coupling part of the
    net force on body 1, k2 (x2' - x1') + b2 (v2' - v1'), is the negation
    of the net force F2 on body 2, and F2 has no drive, k1 or b1 term: it is
    unchanged under any change of the time and of every parameter other
    than k2 and b2. *)
Theorem coupling_third_law
    (state : SimulationState R) (time dt_offset : R) (d : Derivative R)
    (params : SystemParams R) :
  m1 params > 0 -> m2 params > 0 ->
  let l := evaluate_locals state time dt_offset d params in
  let coupling :=
    k2 params * (x2' l - x1' l) + b2 params * (v2' l - v1' l) in
  F_net_1 l = - k1 params * x1' l - b1 params * v1' l + coupling + Force l
  /\ coupling = - F_net_2 l
  /\ dv1 (evaluate state time dt_offset d params) = F_net_1 l / m1 params
  /\ dv2 (evaluate state time dt_offset d params) = F_net_2 l / m2 params
  /\ (forall time' params',
        k2 params' = k2 params -> b2 params' = b2 params ->
        F_net_2 (evaluate_locals state time' dt_offset d params')
        = F_net_2 l).
Proof.
  intros _ _ l coupling. subst coupling l.
  split; [unfold evaluate_locals; cbn; ring |].
  split; [unfold evaluate_locals; cbn; ring |].
  split; [reflexivity |].
  split; [reflexivity |].
  intros time' params' Hk Hb. now apply F_net_2_frame.
Qed.

Lemma coupling_third_law_witness :
  let l := evaluate_locals movingState 0.25 0 zeroDerivative DEFAULT_PARAMS in
  springForce2 l + dampingForce2 l = - F_net_2 l
  /\ F_net_2 l = -8.5.
Proof.
  assert (H1 : m1 DEFAULT_PARAMS > 0) by (cbn; lra).
  assert (H2 : m2 DEFAULT_PARAMS > 0) by (cbn; lra).
  pose proof (coupling_third_law movingState 0.25 0 zeroDerivative
                DEFAULT_PARAMS H1 H2) as [_ [Hneg _]].
  cbv zeta. split.
  - exact Hneg.
  - unfold evaluate_locals; cbn. lra.
Defined.

(** *** The integrator *)

(** Over the reals the weighting (1/6) * (s1 + 2 * (s2 + s3) + s4) of
    [integrateRK4] is the quotient (s1 + 2 s2 + 2 s3 + s4) / 6 of the
    textbook, and dt * 0.5 is dt / 2.  (In binary64 the two weightings can
    differ in the last bit; see the module on binary64.) *)
Lemma integrateRK4_classic
    (state : SimulationState R) (dt : R) (params : SystemParams R) :
  let stage1 := evaluate state (t state) 0 zeroDerivative params in
  let stage2 := evaluate state (t state + dt / 2) (dt / 2) stage1 params in
  let stage3 := evaluate state (t state + dt / 2) (dt / 2) stage2 params in
  let stage4 := evaluate state (t state + dt) dt stage3 params in
  let avg (component : Derivative R -> R) :=
    (component stage1 + 2 * component stage2 + 2 * component stage3
     + component stage4) / 6 in
  integrateRK4 state dt params
  = {| t := t state + dt;
       x1 := x1 state + avg dx1 * dt;
       v1 := v1 state + avg dv1 * dt;
       x2 := x2 state + avg dx2 * dt;
       v2 := v2 state + avg dv2 * dt |}.
Proof.
  intros stage1 stage2 stage3 stage4 avg.
  unfold integrateRK4. cbn -[evaluate].
  replace (dt * 0.5) with (dt / 2) by lra.
  fold zeroDerivative stage1. fold stage2. fold stage3. fold stage4.
  unfold avg. f_equal; lra.
Qed.

(** *** Mechanical energy of the undamped, undriven system

    The rest of this module studies the step with b1 = b2 = 0 and
    forceAmplitude = 0.  Then [evaluate] is a linear
    vector field A on the phase space (x1, v1, x2, v2), one step is
    y + dt A y + dt^2/2 A^2 y + dt^3/6 A^3 y + dt^4/24 A^4 y, and the
    energy is half a quadratic form for which A is skew. *)

(** The total mechanical energy, as the specification writes it. *)
Definition energy (p : SystemParams R) (s : SimulationState R) : R :=
  0.5 * m1 p * (v1 s)^2 + 0.5 * k1 p * (x1 s)^2
  + 0.5 * m2 p * (v2 s)^2 + 0.5 * k2 p * (x2 s - x1 s)^2.

(** The phase-space point of a state.  A point has the four components of
    a [Derivative], which is the type [evaluate] adds to a state, so that
    record is reused for vectors. *)
Definition phase (s : SimulationState R) : Derivative R :=
  {| dx1 := x1 s; dv1 := v1 s; dx2 := x2 s; dv2 := v2 s |}.

(** [u + h w]: the trial state of [evaluate], lines 17-20. *)
Definition axpy (u : Derivative R) (h : R) (w : Derivative R) :
    Derivative R :=
  {| dx1 := dx1 u + dx1 w * h; dv1 := dv1 u + dv1 w * h;
     dx2 := dx2 u + dx2 w * h; dv2 := dv2 u + dv2 w * h |}.

(** What [evaluate] computes at a point when damping and drive are off
    (see [evaluate_linear]). *)
Definition vfield (p : SystemParams R) (u : Derivative R) : Derivative R :=
  {| dx1 := dv1 u;
     dv1 := (- k1 p * dx1 u + k2 p * (dx2 u - dx1 u)) / m1 p;
     dx2 := dv2 u;
     dv2 := - (k2 p * (dx2 u - dx1 u)) / m2 p |}.

(** The bilinear form whose diagonal is twice the energy. *)
Definition form (p : SystemParams R) (u w : Derivative R) : R :=
  m1 p * dv1 u * dv1 w + k1 p * dx1 u * dx1 w
  + m2 p * dv2 u * dv2 w + k2 p * (dx2 u - dx1 u) * (dx2 w - dx1 w).

Section Conservative.
Variable p : SystemParams R.
Hypothesis Hm1 : m1 p > 0.
Hypothesis Hm2 : m2 p > 0.
Hypothesis Hb1 : b1 p = 0.
Hypothesis Hb2 : b2 p = 0.
Hypothesis Hamp : forceAmplitude p = 0.

Lemma energy_form s : energy p s = form p (phase s) (phase s) / 2.
Proof.
  unfold energy, form, phase; cbn [dx1 dv1 dx2 dv2].
  replace 0.5 with (/ 2) by lra. field.
Qed.

Lemma evaluate_linear s time h d :
  evaluate s time h d p = vfield p (axpy (phase s) h d).
Proof.
  unfold evaluate, evaluate_locals, vfield, axpy, phase; cbn.
  rewrite Hb1, Hb2, Hamp. f_equal; unfold Rdiv; ring.
Qed.

Lemma vfield_axpy u h w :
  vfield p (axpy u h w) = axpy (vfield p u) h (vfield p w).
Proof.
  unfold vfield, axpy; cbn. f_equal; unfold Rdiv; ring.
Qed.

Lemma axpy_0 u w : axpy u 0 w = u.
Proof. destruct u; unfold axpy; cbn. f_equal; ring. Qed.

Lemma form_sym u w : form p u w = form p w u.
Proof. unfold form; ring. Qed.

Lemma form_axpy_l u h w z :
  form p (axpy u h w) z = form p u z + h * form p w z.
Proof. unfold form, axpy; cbn. ring. Qed.

Lemma form_axpy_r u h w z :
  form p z (axpy u h w) = form p z u + h * form p z w.
Proof. unfold form, axpy; cbn. ring. Qed.

(** Conservation of energy by the differential equation. *)
Lemma form_skew u w : form p (vfield p u) w = - form p u (vfield p w).
Proof.
  unfold form, vfield; cbn. field. split; lra.
Qed.

Lemma form_skew_diag u : form p u (vfield p u) = 0.
Proof.
  pose proof (form_skew u u) as H.
  rewrite (form_sym (vfield p u) u) in H. lra.
Qed.

Lemma first_stage s time :
  evaluate s time 0 zeroDerivative p = vfield p (phase s).
Proof. now rewrite evaluate_linear, axpy_0. Qed.

Lemma later_stage s time h d :
  evaluate s time h d p = axpy (vfield p (phase s)) h (vfield p d).
Proof. now rewrite evaluate_linear, vfield_axpy. Qed.

(** One step is the degree-4 Taylor polynomial of the flow, in Horner
    form. *)
Lemma integrateRK4_phase s dt :
  let a1 := vfield p (phase s) in
  let a2 := vfield p a1 in
  let a3 := vfield p a2 in
  let a4 := vfield p a3 in
  phase (integrateRK4 s dt p)
  = axpy (phase s) dt
      (axpy a1 (dt / 2) (axpy a2 (dt / 3) (axpy a3 (dt / 4) a4))).
Proof.
  intros a1 a2 a3 a4.
  unfold integrateRK4. cbn -[evaluate]. fold zeroDerivative.
  rewrite first_stage, !later_stage, !vfield_axpy.
  fold a1. fold a2. fold a3. fold a4.
  clearbody a1 a2 a3 a4.
  unfold phase, axpy; cbn.
  replace 0.5 with (/ 2) by lra. f_equal; field.
Qed.

Lemma form_shift u w : form p u (vfield p w) = - form p (vfield p u) w.
Proof. rewrite form_skew. ring. Qed.

(** The exact energy balance of one step:
    E' = E - dt^6/72 E(A^3 y) + dt^8/576 E(A^4 y). *)
Lemma energy_step s dt :
  let a3 := vfield p (vfield p (vfield p (phase s))) in
  let a4 := vfield p a3 in
  energy p (integrateRK4 s dt p)
  = energy p s - dt ^ 6 / 144 * form p a3 a3 + dt ^ 8 / 1152 * form p a4 a4.
Proof.
  intros a3 a4. subst a3 a4.
  rewrite !energy_form, integrateRK4_phase. cbv zeta.
  set (y := phase s).
  set (a1 := vfield p y). set (a2 := vfield p a1).
  set (a3 := vfield p a2). set (a4 := vfield p a3).
  rewrite !form_axpy_l, !form_axpy_r.
  assert (H01 : form p y a1 = 0) by apply form_skew_diag.
  assert (H12 : form p a1 a2 = 0) by apply form_skew_diag.
  assert (H23 : form p a2 a3 = 0) by apply form_skew_diag.
  assert (H34 : form p a3 a4 = 0) by apply form_skew_diag.
  assert (H02 : form p y a2 = - form p a1 a1) by apply form_shift.
  assert (H13 : form p a1 a3 = - form p a2 a2) by apply form_shift.
  assert (H24 : form p a2 a4 = - form p a3 a3) by apply form_shift.
  assert (H03 : form p y a3 = 0).
  { transitivity (- form p a1 a2); [apply form_shift | lra]. }
  assert (H14 : form p a1 a4 = 0).
  { transitivity (- form p a2 a3); [apply form_shift | lra]. }
  assert (H04 : form p y a4 = form p a2 a2).
  { transitivity (- form p a1 a3); [apply form_shift | lra]. }
  rewrite ?(form_sym a1 y), ?(form_sym a2 y), ?(form_sym a3 y),
    ?(form_sym a4 y), ?(form_sym a2 a1), ?(form_sym a3 a1),
    ?(form_sym a4 a1), ?(form_sym a3 a2), ?(form_sym a4 a2),
    ?(form_sym a4 a3).
  rewrite ?H01, ?H12, ?H23, ?H34, ?H02, ?H13, ?H24, ?H03, ?H14, ?H04.
  field.
Qed.

End Conservative.

(** The undamped, undriven default system. *)
Definition CONSERVATIVE_PARAMS : SystemParams R :=
  {| m1 := 50; k1 := 2000; b1 := 0; m2 := 5; k2 := 200; b2 := 0;
     forceAmplitude := 0; forceFrequency := 1.0 |}.

(** Body 1 displaced by a centimetre, everything else at rest. *)
Definition displacedState : SimulationState R :=
  {| t := 0; x1 := 0.01; v1 := 0; x2 := 0; v2 := 0 |}.

End Real.

(** ** The four stages of a step *)

(** C2 (as the code has it).  One call of [integrateRK4] is the classic
    RK4 update: four calls of [evaluate], at times t, t + h, t + h, t + dt
    with offsets 0, h, h, dt, where h is the half step dt * 0.5, the first
    probed with the zero derivative and each later one with the previous
    result; the combined derivative of each component is
    (1/6) * (s1 + 2 * (s2 + s3) + s4), computed in this order; the new
    state has t' = t + dt and x1, v1, x2, v2 advanced by that derivative
    times dt.  This holds in every arithmetic, binary64 included; over the
    reals the result is the update of the specification, with dt / 2 and
    (s1 + 2 s2 + 2 s3 + s4) / 6. *)
Theorem integrateRK4_four_stages :
  (forall (T : Type) (N : Number T) (state : SimulationState T) (dt : T)
      (params : SystemParams T),
      let zero := {| dx1 := lit0; dv1 := lit0; dx2 := lit0; dv2 := lit0 |} in
      let h := (dt * lit0_5)%num in
      let stage1 := evaluate state (t state) lit0 zero params in
      let stage2 := evaluate state (t state + h)%num h stage1 params in
      let stage3 := evaluate state (t state + h)%num h stage2 params in
      let stage4 := evaluate state (t state + dt)%num dt stage3 params in
      let avg (component : Derivative T -> T) :=
        ((lit1 / lit6)
         * (component stage1 + lit2 * (component stage2 + component stage3)
            + component stage4))%num in
      integrateRK4 state dt params
      = {| t := (t state + dt)%num;
           x1 := (x1 state + avg dx1 * dt)%num;
           v1 := (v1 state + avg dv1 * dt)%num;
           x2 := (x2 state + avg dx2 * dt)%num;
           v2 := (v2 state + avg dv2 * dt)%num |})
  /\ (forall (state : SimulationState R) (dt : R) (params : SystemParams R),
        integrateRK4 state dt params = classicRK4 state dt params).
Proof.
  split.
  - reflexivity.
  - intros state dt params. apply Real.integrateRK4_classic.
Qed.

(** ** Reading over binary64: what the JavaScript engine computes *)

Module Binary64.
Local Open Scope float_scope.

(** [constants.ts]; 0.01 is read as the nearest double, as JavaScript
    reads it. *)
Definition DEFAULT_PARAMS : SystemParams float :=
  {| m1 := 50; k1 := 2000; b1 := 10; m2 := 5; k2 := 200; b2 := 15;
     forceAmplitude := 50; forceFrequency := 1.0 |}.

#[warnings="-inexact-float"]
Definition PHYSICS_DT : float := 0.01.

(** The spec's error scenario: m1 = 0, all else default. *)
Definition ZERO_M1_PARAMS : SystemParams float :=
  {| m1 := 0; k1 := 2000; b1 := 10; m2 := 5; k2 := 200; b2 := 15;
     forceAmplitude := 50; forceFrequency := 1.0 |}.

(** A state with finite components whose spring force overflows:
    2000 * 1e308 is beyond the largest double. *)
#[warnings="-inexact-float"]
Definition HUGE_STATE : SimulationState float :=
  {| t := 0; x1 := 1e308; v1 := 0; x2 := 0; v2 := 0 |}.

(** JavaScript's [Number.isFinite]: neither NaN nor an infinity. *)
Definition isFinite (x : float) : bool :=
  match Prim2SF x with
  | S754_nan | S754_infinity _ => false
  | S754_zero _ | S754_finite _ _ _ => true
  end.

Definition stateIsFinite (s : SimulationState float) : bool :=
  isFinite (t s) && isFinite (x1 s) && isFinite (v1 s)
  && isFinite (x2 s) && isFinite (v2 s).

(** *** NaN and the infinities are absorbing *)

Ltac by_cases_on x y :=
  destruct (Prim2SF x) as [[|]|[|]| |[|] ? ?]; try discriminate; intros _;
  destruct (Prim2SF y) as [[|]|[|]| |[|] ? ?]; reflexivity.

Lemma add_not_finite_l (x y : float) :
  isFinite x = false -> isFinite (x + y) = false.
Proof. unfold isFinite. rewrite add_spec. by_cases_on x y. Qed.

Lemma add_not_finite_r (x y : float) :
  isFinite y = false -> isFinite (x + y) = false.
Proof. unfold isFinite. rewrite add_spec. by_cases_on y x. Qed.

Lemma mul_not_finite_l (x y : float) :
  isFinite x = false -> isFinite (x * y) = false.
Proof. unfold isFinite. rewrite mul_spec. by_cases_on x y. Qed.

Lemma mul_not_finite_r (x y : float) :
  isFinite y = false -> isFinite (x * y) = false.
Proof. unfold isFinite. rewrite mul_spec. by_cases_on y x. Qed.

Lemma div_not_finite_l (x y : float) :
  isFinite x = false -> isFinite (x / y) = false.
Proof. unfold isFinite. rewrite div_spec. by_cases_on x y. Qed.

(** [y == 0] holds of +0 and of -0 only. *)
Lemma eqb_zero (y : float) :
  (y =? 0) = true -> exists s, Prim2SF y = S754_zero s.
Proof.
  rewrite FloatAxioms.eqb_spec.
  destruct (Prim2SF y) as [s|[|]| |[|] ? ?]; try discriminate.
  intros _. now exists s.
Qed.

(** Division by a zero never gives a finite number: x / 0 is an infinity,
    or NaN when x is a zero or NaN. *)
Lemma div_by_zero (x y : float) :
  (y =? 0) = true -> isFinite (x / y) = false.
Proof.
  intros Hy. destruct (eqb_zero y Hy) as [s Hs].
  unfold isFinite. rewrite div_spec, Hs.
  destruct (Prim2SF x) as [[|]|[|]| |[|] ? ?]; destruct s; reflexivity.
Qed.

Lemma add_nan_l (y : float) : nan + y = nan.
Proof. apply Prim2SF_inj. rewrite add_spec. reflexivity. Qed.

Lemma add_nan_r (x : float) : x + nan = nan.
Proof.
  apply Prim2SF_inj. rewrite add_spec.
  change (Prim2SF nan) with S754_nan. now destruct (Prim2SF x).
Qed.

Lemma mul_nan_l (y : float) : nan * y = nan.
Proof. apply Prim2SF_inj. rewrite mul_spec. reflexivity. Qed.

Lemma mul_nan_r (x : float) : x * nan = nan.
Proof.
  apply Prim2SF_inj. rewrite mul_spec.
  change (Prim2SF nan) with S754_nan. now destruct (Prim2SF x).
Qed.

Lemma stateIsFinite_v1 (s : SimulationState float) :
  isFinite (v1 s) = false -> stateIsFinite s = false.
Proof.
  intro Hv. unfold stateIsFinite. rewrite Hv.
  now rewrite !Bool.andb_false_r.
Qed.

(** *** The engine with an arbitrary [Math.sin] *)

Section WithSin.
Variable js_sin : float -> float.

#[local] Instance jsNumber : Number float := FloatNumber js_sin.

Definition zeroDerivative : Derivative float :=
  {| dx1 := 0; dv1 := 0; dx2 := 0; dv2 := 0 |}.

(** Line 64, with lines 51-54 and 57 unfolded. *)
Lemma integrateRK4_v1 (s : SimulationState float) (dt : float)
    (p : SystemParams float) :
  let a := evaluate s (t s) 0 zeroDerivative p in
  let b := evaluate s (t s + dt * 0.5) (dt * 0.5) a p in
  let c := evaluate s (t s + dt * 0.5) (dt * 0.5) b p in
  let d := evaluate s (t s + dt) dt c p in
  v1 (integrateRK4 s dt p)
  = v1 s + (1 / 6) * (dv1 a + 2 * (dv1 b + dv1 c) + dv1 d) * dt.
Proof. reflexivity. Qed.

Lemma integrateRK4_v2 (s : SimulationState float) (dt : float)
    (p : SystemParams float) :
  let a := evaluate s (t s) 0 zeroDerivative p in
  let b := evaluate s (t s + dt * 0.5) (dt * 0.5) a p in
  let c := evaluate s (t s + dt * 0.5) (dt * 0.5) b p in
  let d := evaluate s (t s + dt) dt c p in
  v2 (integrateRK4 s dt p)
  = v2 s + (1 / 6) * (dv2 a + 2 * (dv2 b + dv2 c) + dv2 d) * dt.
Proof. reflexivity. Qed.

(** A first-stage acceleration that is not finite reaches the returned
    velocity: every later operation on it is a sum or a product. *)
Lemma v1_not_finite (s : SimulationState float) (dt : float)
    (p : SystemParams float) :
  isFinite (dv1 (evaluate s (t s) 0 zeroDerivative p)) = false ->
  isFinite (v1 (integrateRK4 s dt p)) = false.
Proof.
  intro Ha. rewrite integrateRK4_v1. cbv zeta.
  apply add_not_finite_r, mul_not_finite_l, mul_not_finite_r.
  now apply add_not_finite_l, add_not_finite_l.
Qed.

Lemma v2_not_finite (s : SimulationState float) (dt : float)
    (p : SystemParams float) :
  isFinite (dv2 (evaluate s (t s) 0 zeroDerivative p)) = false ->
  isFinite (v2 (integrateRK4 s dt p)) = false.
Proof.
  intro Ha. rewrite integrateRK4_v2. cbv zeta.
  apply add_not_finite_r, mul_not_finite_l, mul_not_finite_r.
  now apply add_not_finite_l, add_not_finite_l.
Qed.

(** With m1 = 0 the first stage divides by zero. *)
Lemma zero_m1_v1_not_finite (s : SimulationState float) (dt : float)
    (p : SystemParams float) :
  (m1 p =? 0) = true -> isFinite (v1 (integrateRK4 s dt p)) = false.
Proof.
  intro Hm. apply v1_not_finite. unfold evaluate; cbn [dv1].
  now apply div_by_zero.
Qed.

Lemma zero_m2_v2_not_finite (s : SimulationState float) (dt : float)
    (p : SystemParams float) :
  (m2 p =? 0) = true -> isFinite (v2 (integrateRK4 s dt p)) = false.
Proof.
  intro Hm. apply v2_not_finite. unfold evaluate; cbn [dv2].
  now apply div_by_zero.
Qed.

(** The spec's error scenario, traced: at rest the net force on body 1 is
    0 + 50 * sin(0) = 0, and 0 / 0 is NaN. *)
Lemma zero_m1_defaults_v1_nan :
  js_sin 0 = 0 ->
  v1 (integrateRK4 initialState PHYSICS_DT ZERO_M1_PARAMS) = nan.
Proof.
  intro Hsin. rewrite integrateRK4_v1. cbv zeta.
  set (a := evaluate initialState _ _ zeroDerivative _).
  assert (Ha : dv1 a = nan).
  { subst a. unfold evaluate, evaluate_locals, initialState; cbn.
    rewrite Hsin. reflexivity. }
  rewrite Ha, !add_nan_l, mul_nan_r, mul_nan_l. apply add_nan_r.
Qed.

(** From [HUGE_STATE] the spring force on body 1 overflows. *)
Lemma huge_state_v1_not_finite :
  isFinite (v1 (integrateRK4 HUGE_STATE PHYSICS_DT DEFAULT_PARAMS)) = false.
Proof.
  apply v1_not_finite.
  unfold evaluate, evaluate_locals, HUGE_STATE; cbn.
  now apply div_not_finite_l, add_not_finite_l.
Qed.

(** C1 (as the code has it).  [integrateRK4] does not check the masses:
    with m1 <= 0 or m2 <= 0 it returns a state and no error; when m1 is
    zero the returned v1 is NaN or an infinity, and likewise v2 when m2
    is zero. *)
Theorem nonpositive_mass_returns_state (s : SimulationState float)
    (dt : float) (p : SystemParams float) :
  (m1 p <=? 0) = true \/ (m2 p <=? 0) = true ->
  step s dt p = Ok (integrateRK4 s dt p)
  /\ ((m1 p =? 0) = true ->
      isFinite (v1 (integrateRK4 s dt p)) = false)
  /\ ((m2 p =? 0) = true ->
      isFinite (v2 (integrateRK4 s dt p)) = false).
Proof.
  intros _. split; [apply step_returns |].
  split; [apply zero_m1_v1_not_finite | apply zero_m2_v2_not_finite].
Qed.

(** C5 (as the code has it).  The result type of [integrateRK4] is
    [SimulationState]: a computed state with a NaN or infinite component
    is returned as it is; no [NonFiniteResult] or other error is
    reported, so nothing is retried either. *)
Theorem non_finite_state_is_returned (s : SimulationState float)
    (dt : float) (p : SystemParams float) :
  stateIsFinite (integrateRK4 s dt p) = false ->
  step s dt p = Ok (integrateRK4 s dt p)
  /\ forall e : StepError, step s dt p <> Err e.
Proof.
  intros _. split; [apply step_returns | intro e; apply step_never_fails].
Qed.
End WithSin.

(** Below, [Math.sin] is universally quantified inside each closed
    statement: [rk4 js_sin] is the engine run with [js_sin] for it. *)
Local Abbreviation rk4 js_sin := (integrateRK4 (N := FloatNumber js_sin)).
Local Abbreviation rk4_step js_sin := (step (N := FloatNumber js_sin)).
Local Abbreviation rest js_sin := (initialState (N := FloatNumber js_sin)).

Lemma nonpositive_mass_returns_state_witness :
  (m1 ZERO_M1_PARAMS <=? 0) = true
  /\ forall js_sin : float -> float,
      isFinite
        (v1 (rk4 js_sin (rest js_sin) PHYSICS_DT ZERO_M1_PARAMS)) = false.
Proof.
  split; [reflexivity |]. intro js_sin.
  destruct (nonpositive_mass_returns_state js_sin (rest js_sin) PHYSICS_DT
              ZERO_M1_PARAMS (or_introl eq_refl)) as [_ [Hv1 _]].
  exact (Hv1 eq_refl).
Defined.

(** C1, as stated, fails on its own scenario: with m1 = 0 and everything
    else at its default, the first step from rest is not an
    [InvalidParameter] error; it returns a state whose v1 is NaN, whatever
    function implements [Math.sin] (ECMAScript fixes sin(+0) = +0). *)
Lemma zero_mass_step_returns_nan :
  (m1 ZERO_M1_PARAMS <=? 0) = true
  /\ forall js_sin : float -> float,
      js_sin 0 = 0 ->
      rk4_step js_sin (rest js_sin) PHYSICS_DT ZERO_M1_PARAMS
      = Ok (rk4 js_sin (rest js_sin) PHYSICS_DT ZERO_M1_PARAMS)
      /\ v1 (rk4 js_sin (rest js_sin) PHYSICS_DT ZERO_M1_PARAMS) = nan.
Proof.
  split; [reflexivity |]. intros js_sin Hsin.
  split; [reflexivity |]. now apply zero_m1_defaults_v1_nan.
Qed.

Lemma non_finite_state_is_returned_witness :
  stateIsFinite HUGE_STATE = true
  /\ forall js_sin : float -> float,
      rk4_step js_sin HUGE_STATE PHYSICS_DT DEFAULT_PARAMS
      = Ok (rk4 js_sin HUGE_STATE PHYSICS_DT DEFAULT_PARAMS).
Proof.
  split; [reflexivity |]. intro js_sin.
  apply (non_finite_state_is_returned js_sin HUGE_STATE PHYSICS_DT
           DEFAULT_PARAMS).
  apply stateIsFinite_v1, huge_state_v1_not_finite.
Defined.

(** C5, as stated, fails: from the finite state [HUGE_STATE], with the
    default parameters and time step, the computed state has a v1 that is
    not finite, and the call returns it instead of reporting
    [NonFiniteResult]. *)
Lemma overflow_is_returned :
  stateIsFinite HUGE_STATE = true
  /\ forall js_sin : float -> float,
      stateIsFinite (rk4 js_sin HUGE_STATE PHYSICS_DT DEFAULT_PARAMS) = false
      /\ rk4_step js_sin HUGE_STATE PHYSICS_DT DEFAULT_PARAMS
         = Ok (rk4 js_sin HUGE_STATE PHYSICS_DT DEFAULT_PARAMS).
Proof.
  split; [reflexivity |]. intro js_sin. split.
  - apply stateIsFinite_v1, huge_state_v1_not_finite.
  - reflexivity.
Qed.

(** *** Zeros, NaN and equations between computed numbers

    The rest of this module reads the statements of the specification
    that speak of exact equality ("the same state", "never changes",
    "equal") on the binary64 engine.
    There an equation can fail in two ways that real arithmetic does not
    know: a product 0 * x is NaN when x is not finite, and a sum can turn
    a -0 into a +0. *)

(** The default system with the drive switched off (amplitude slider at
    its minimum, 0). *)
Definition UNDRIVEN_PARAMS : SystemParams float :=
  with_drive DEFAULT_PARAMS 0 1.

(** The same with the frequency at 0 as well, so that every drive phase
    2 pi f t is 0, where ECMAScript fixes [Math.sin]: sin(+0) = +0. *)
Definition ZERO_FREQUENCY_PARAMS : SystemParams float :=
  with_drive DEFAULT_PARAMS 0 0.

(** The undriven default system with an infinitely stiff wall spring. *)
Definition RIGID_PARAMS : SystemParams float :=
  {| m1 := 50; k1 := infinity; b1 := 10; m2 := 5; k2 := 200; b2 := 15;
     forceAmplitude := 0; forceFrequency := 1 |}.


(** An arbitrary state in motion. *)
#[warnings="-inexact-float"]
Definition movingState : SimulationState float :=
  {| t := 0.25; x1 := 0.01; v1 := -0.2; x2 := 0.03; v2 := 0.1 |}.




(** A time step so long that the drive phase of the second stage
    overflows. *)
#[warnings="-inexact-float"]
Definition HUGE_DT : float := 1e308.

(** [x === 0]: +0 or -0. *)
Definition isZero (x : float) : bool :=
  match Prim2SF x with
  | S754_zero _ => true
  | _ => false
  end.

(** [a === b], or one of the two is NaN: what is left of an equation
    between two computed numbers when a NaN may have come up on one side.
    [===] identifies +0 and -0. *)
Definition sameUnlessNaN (a b : float) : bool :=
  is_nan a || is_nan b || (a =? b).

Definition zeroOrNaN (x : float) : Prop := x = nan \/ isZero x = true.

(** [sameUnlessNaN] as a proposition, in the shape the proofs use. *)
Definition agree (a b : float) : Prop :=
  a = nan \/ b = nan \/ a = b \/ (isZero a = true /\ isZero b = true).

(** The argument of [Math.sin] in line 23. *)
Definition drivePhase (p : SystemParams float) (time : float) : float :=
  2 * 0x1.921fb54442d18p+1 * forceFrequency p * time.

Lemma nan_intro (x : float) : Prim2SF x = S754_nan -> x = nan.
Proof. intro H. apply Prim2SF_inj. exact H. Qed.

Lemma isZero_elim (x : float) :
  isZero x = true -> exists s, Prim2SF x = S754_zero s.
Proof.
  unfold isZero. destruct (Prim2SF x) as [s| | |]; try discriminate.
  intros _. now exists s.
Qed.

Lemma isZero_intro (x : float) (s : bool) :
  Prim2SF x = S754_zero s -> isZero x = true.
Proof. unfold isZero. now intros ->. Qed.

Lemma isZero_eqb (x : float) : isZero x = (x =? 0).
Proof.
  unfold isZero. rewrite FloatAxioms.eqb_spec.
  destruct (Prim2SF x) as [[|]|[|]| |[|] ? ?]; reflexivity.
Qed.

Lemma isZero_isFinite (a : float) : isZero a = true -> isFinite a = true.
Proof. unfold isZero, isFinite. now destruct (Prim2SF a). Qed.

(** **** Sums and differences with a zero *)

Lemma add_zero_zero (a b : float) :
  isZero a = true -> isZero b = true -> isZero (a + b) = true.
Proof.
  intros Ha Hb.
  destruct (isZero_elim a Ha) as [s Hs], (isZero_elim b Hb) as [s' Hs'].
  unfold isZero. rewrite add_spec, Hs, Hs'. now destruct s, s'.
Qed.

(** [a + 0] is [a], except that the sum of two zeros is a zero of some
    sign. *)
Lemma add_zero_r (a c : float) :
  isZero c = true -> a + c = a \/ (isZero a = true /\ isZero (a + c) = true).
Proof.
  intros Hc. destruct (isZero_elim c Hc) as [s Hs].
  destruct (Prim2SF a) as [sa|sa| |sa ma ea] eqn:Ea.
  - right. split; [now apply (isZero_intro a sa) |].
    apply add_zero_zero; [now apply (isZero_intro a sa) | exact Hc].
  - left. apply Prim2SF_inj. rewrite add_spec, Ea, Hs. reflexivity.
  - left. apply Prim2SF_inj. rewrite add_spec, Ea, Hs. reflexivity.
  - left. apply Prim2SF_inj. rewrite add_spec, Ea, Hs. reflexivity.
Qed.

Lemma add_zero_l (a c : float) :
  isZero c = true -> c + a = a \/ (isZero a = true /\ isZero (c + a) = true).
Proof.
  intros Hc. destruct (isZero_elim c Hc) as [s Hs].
  destruct (Prim2SF a) as [sa|sa| |sa ma ea] eqn:Ea.
  - right. split; [now apply (isZero_intro a sa) |].
    apply add_zero_zero; [exact Hc | now apply (isZero_intro a sa)].
  - left. apply Prim2SF_inj. rewrite add_spec, Ea, Hs. reflexivity.
  - left. apply Prim2SF_inj. rewrite add_spec, Ea, Hs. reflexivity.
  - left. apply Prim2SF_inj. rewrite add_spec, Ea, Hs. reflexivity.
Qed.

Lemma sub_nan_l (y : float) : nan - y = nan.
Proof. apply Prim2SF_inj. rewrite sub_spec. reflexivity. Qed.

Lemma sub_nan_r (x : float) : x - nan = nan.
Proof.
  apply Prim2SF_inj. rewrite sub_spec.
  change (Prim2SF nan) with S754_nan. now destruct (Prim2SF x).
Qed.

Lemma div_nan_l (y : float) : nan / y = nan.
Proof. apply Prim2SF_inj. rewrite div_spec. reflexivity. Qed.

Lemma sub_zero_zero (a b : float) :
  isZero a = true -> isZero b = true -> isZero (a - b) = true.
Proof.
  intros Ha Hb.
  destruct (isZero_elim a Ha) as [s Hs], (isZero_elim b Hb) as [s' Hs'].
  unfold isZero. rewrite sub_spec, Hs, Hs'. now destruct s, s'.
Qed.

Lemma sub_zero_r (a c : float) :
  isZero c = true -> a - c = a \/ (isZero a = true /\ isZero (a - c) = true).
Proof.
  intros Hc. destruct (isZero_elim c Hc) as [s Hs].
  destruct (Prim2SF a) as [sa|sa| |sa ma ea] eqn:Ea.
  - right. split; [now apply (isZero_intro a sa) |].
    apply sub_zero_zero; [now apply (isZero_intro a sa) | exact Hc].
  - left. apply Prim2SF_inj. rewrite sub_spec, Ea, Hs. reflexivity.
  - left. apply Prim2SF_inj. rewrite sub_spec, Ea, Hs. reflexivity.
  - left. apply Prim2SF_inj. rewrite sub_spec, Ea, Hs. reflexivity.
Qed.

Lemma sub_zero_l (a c c' : float) :
  isZero c = true -> isZero c' = true ->
  c - a = c' - a \/ (isZero (c - a) = true /\ isZero (c' - a) = true).
Proof.
  intros Hc Hc'.
  destruct (isZero_elim c Hc) as [s Hs], (isZero_elim c' Hc') as [s' Hs'].
  destruct (Prim2SF a) as [sa|sa| |sa ma ea] eqn:Ea.
  - right. assert (Ha : isZero a = true) by now apply (isZero_intro a sa).
    split; now apply sub_zero_zero.
  - left. apply Prim2SF_inj. rewrite !sub_spec, Ea, Hs, Hs'. reflexivity.
  - left. apply Prim2SF_inj. rewrite !sub_spec, Ea, Hs, Hs'. reflexivity.
  - left. apply Prim2SF_inj. rewrite !sub_spec, Ea, Hs, Hs'. reflexivity.
Qed.

Lemma opp_zero (a : float) : isZero a = true -> isZero (- a) = true.
Proof.
  intros Ha. destruct (isZero_elim a Ha) as [s Hs].
  unfold isZero. now rewrite opp_spec, Hs.
Qed.

Lemma zero_add_zero (z : float) : isZero z = true -> 0 + z = 0.
Proof.
  intro Hz. destruct (isZero_elim z Hz) as [s Hs].
  apply Prim2SF_inj. rewrite add_spec, Hs. now destruct s.
Qed.

(** **** Products and quotients of a zero *)

Lemma mul_zero_finite (a b : float) :
  isZero a = true -> isFinite b = true -> isZero (a * b) = true.
Proof.
  intros Ha Hb. destruct (isZero_elim a Ha) as [s Hs].
  unfold isZero, isFinite in *. rewrite mul_spec, Hs.
  now destruct (Prim2SF b).
Qed.

Lemma mul_finite_zero (a b : float) :
  isFinite a = true -> isZero b = true -> isZero (a * b) = true.
Proof.
  intros Ha Hb. destruct (isZero_elim b Hb) as [s Hs].
  unfold isZero, isFinite in *. rewrite mul_spec, Hs.
  now destruct (Prim2SF a).
Qed.

(** 0 * x is NaN when x is an infinity or NaN. *)
Lemma mul_zero_not_finite (a b : float) :
  isZero a = true -> isFinite b = false -> a * b = nan.
Proof.
  intros Ha Hb. destruct (isZero_elim a Ha) as [s Hs].
  apply nan_intro. unfold isFinite in Hb. rewrite mul_spec, Hs.
  now destruct (Prim2SF b).
Qed.

Lemma positive_cases (m : float) :
  (0 <? m) = true ->
  Prim2SF m = S754_infinity false
  \/ exists mm e, Prim2SF m = S754_finite false mm e.
Proof.
  rewrite ltb_spec. change (Prim2SF 0) with (S754_zero false).
  destruct (Prim2SF m) as [s|[|]| |[|] mm e]; cbn; try discriminate.
  - now left.
  - right. now exists mm, e.
Qed.

Lemma div_zero_pos (a m : float) :
  isZero a = true -> (0 <? m) = true -> isZero (a / m) = true.
Proof.
  intros Ha Hm. destruct (isZero_elim a Ha) as [s Hs].
  unfold isZero. rewrite div_spec, Hs.
  destruct (positive_cases m Hm) as [-> | [mm [e ->]]]; reflexivity.
Qed.

Lemma zero_add_positive (m : float) : (0 <? m) = true -> 0 + m = m.
Proof.
  intro Hm. apply Prim2SF_inj. rewrite add_spec.
  change (Prim2SF 0) with (S754_zero false).
  destruct (positive_cases m Hm) as [-> | [mm [e ->]]]; reflexivity.
Qed.

Lemma isFinite_opp (a : float) : isFinite a = true -> isFinite (- a) = true.
Proof. unfold isFinite. rewrite opp_spec. now destruct (Prim2SF a). Qed.

(** A finite product has finite factors. *)
Lemma isFinite_factor (a b : float) :
  isFinite (a * b) = true -> isFinite a = true.
Proof.
  intro H. destruct (isFinite a) eqn:E; [reflexivity |].
  now rewrite (mul_not_finite_l a b E) in H.
Qed.

Lemma zero_mul_zeroOrNaN (a b : float) :
  isZero a = true -> zeroOrNaN (a * b).
Proof.
  intros Ha. destruct (isFinite b) eqn:Eb.
  - right. now apply mul_zero_finite.
  - left. now apply mul_zero_not_finite.
Qed.

Lemma mul_zero_zeroOrNaN (a b : float) :
  isZero b = true -> zeroOrNaN (a * b).
Proof.
  intros Hb. destruct (isZero_elim b Hb) as [s Hs]. unfold zeroOrNaN, isZero.
  destruct (Prim2SF a) as [sa|sa| |sa ma ea] eqn:Ea.
  - right. now rewrite mul_spec, Hs, Ea.
  - left. apply nan_intro. now rewrite mul_spec, Hs, Ea.
  - left. apply nan_intro. now rewrite mul_spec, Hs, Ea.
  - right. now rewrite mul_spec, Hs, Ea.
Qed.

Lemma zero_div_zeroOrNaN (a m : float) :
  isZero a = true -> zeroOrNaN (a / m).
Proof.
  intros Ha. destruct (isZero_elim a Ha) as [s Hs]. unfold zeroOrNaN, isZero.
  destruct (Prim2SF m) as [sb|sb| |sb mb eb] eqn:Eb.
  - left. apply nan_intro. now rewrite div_spec, Hs, Eb.
  - right. now rewrite div_spec, Hs, Eb.
  - left. apply nan_intro. now rewrite div_spec, Hs, Eb.
  - right. now rewrite div_spec, Hs, Eb.
Qed.

(** **** "Zero or NaN" is closed under the arithmetic of the engine *)

Lemma zeroOrNaN_add (a b : float) :
  zeroOrNaN a -> zeroOrNaN b -> zeroOrNaN (a + b).
Proof.
  intros [-> | Ha] [-> | Hb].
  - left. apply add_nan_l.
  - left. apply add_nan_l.
  - left. apply add_nan_r.
  - right. now apply add_zero_zero.
Qed.

Lemma zeroOrNaN_sub (a b : float) :
  zeroOrNaN a -> zeroOrNaN b -> zeroOrNaN (a - b).
Proof.
  intros [-> | Ha] [-> | Hb].
  - left. apply sub_nan_l.
  - left. apply sub_nan_l.
  - left. apply sub_nan_r.
  - right. now apply sub_zero_zero.
Qed.

Lemma zeroOrNaN_mul_l (a b : float) : zeroOrNaN a -> zeroOrNaN (a * b).
Proof.
  intros [-> | Ha]; [left; apply mul_nan_l | now apply zero_mul_zeroOrNaN].
Qed.

Lemma zeroOrNaN_mul_r (a b : float) : zeroOrNaN b -> zeroOrNaN (a * b).
Proof.
  intros [-> | Hb]; [left; apply mul_nan_r | now apply mul_zero_zeroOrNaN].
Qed.

Lemma zeroOrNaN_div (a m : float) : zeroOrNaN a -> zeroOrNaN (a / m).
Proof.
  intros [-> | Ha]; [left; apply div_nan_l | now apply zero_div_zeroOrNaN].
Qed.

Lemma zeroOrNaN_opp (a : float) : zeroOrNaN a -> zeroOrNaN (- a).
Proof. intros [-> | Ha]; [left; reflexivity | right; now apply opp_zero]. Qed.

(** **** Agreement is preserved by the arithmetic of the engine *)

Lemma agree_refl (a : float) : agree a a.
Proof. right; right; left; reflexivity. Qed.

Lemma zeroOrNaN_agree (a b : float) :
  zeroOrNaN a -> zeroOrNaN b -> agree a b.
Proof.
  intros [Ha | Ha] [Hb | Hb].
  - now left.
  - now left.
  - right; now left.
  - right; right; right; now split.
Qed.

Lemma agree_add (a a' c c' : float) :
  agree a a' -> agree c c' -> agree (a + c) (a' + c').
Proof.
  intros [-> | [-> | Ha]]; [left; apply add_nan_l | |].
  { right; left; apply add_nan_l. }
  intros [-> | [-> | Hc]]; [left; apply add_nan_r | |].
  { right; left; apply add_nan_r. }
  destruct Ha as [<- | [Za Za']], Hc as [<- | [Zc Zc']].
  - apply agree_refl.
  - destruct (add_zero_r a c Zc) as [E | [Z1 Z2]],
      (add_zero_r a c' Zc') as [E' | [Z1' Z2']].
    + right; right; left. now rewrite E, E'.
    + right; right; right. rewrite E. now split.
    + right; right; right. rewrite E'. now split.
    + right; right; right. now split.
  - destruct (add_zero_l c a Za) as [E | [Z1 Z2]],
      (add_zero_l c a' Za') as [E' | [Z1' Z2']].
    + right; right; left. now rewrite E, E'.
    + right; right; right. rewrite E. now split.
    + right; right; right. rewrite E'. now split.
    + right; right; right. now split.
  - right; right; right. split; now apply add_zero_zero.
Qed.

Lemma agree_sub (a a' c c' : float) :
  agree a a' -> agree c c' -> agree (a - c) (a' - c').
Proof.
  intros [-> | [-> | Ha]]; [left; apply sub_nan_l | |].
  { right; left; apply sub_nan_l. }
  intros [-> | [-> | Hc]]; [left; apply sub_nan_r | |].
  { right; left; apply sub_nan_r. }
  destruct Ha as [<- | [Za Za']], Hc as [<- | [Zc Zc']].
  - apply agree_refl.
  - destruct (sub_zero_r a c Zc) as [E | [Z1 Z2]],
      (sub_zero_r a c' Zc') as [E' | [Z1' Z2']].
    + right; right; left. now rewrite E, E'.
    + right; right; right. rewrite E. now split.
    + right; right; right. rewrite E'. now split.
    + right; right; right. now split.
  - destruct (sub_zero_l c a a' Za Za') as [E | [Z1 Z2]].
    + right; right; left. exact E.
    + right; right; right. now split.
  - right; right; right. split; now apply sub_zero_zero.
Qed.

Lemma agree_mul (a a' c c' : float) :
  agree a a' -> agree c c' -> agree (a * c) (a' * c').
Proof.
  intros [-> | [-> | Ha]]; [left; apply mul_nan_l | |].
  { right; left; apply mul_nan_l. }
  intros [-> | [-> | Hc]]; [left; apply mul_nan_r | |].
  { right; left; apply mul_nan_r. }
  destruct Ha as [<- | [Za Za']], Hc as [<- | [Zc Zc']].
  - apply agree_refl.
  - apply zeroOrNaN_agree; now apply mul_zero_zeroOrNaN.
  - apply zeroOrNaN_agree; now apply zero_mul_zeroOrNaN.
  - apply zeroOrNaN_agree; now apply zero_mul_zeroOrNaN.
Qed.

(** Both quotients have the same divisor: the engine divides by a mass or
    by 6 only. *)
Lemma agree_div (a a' m : float) : agree a a' -> agree (a / m) (a' / m).
Proof.
  intros [-> | [-> | [<- | [Za Za']]]].
  - left; apply div_nan_l.
  - right; left; apply div_nan_l.
  - apply agree_refl.
  - apply zeroOrNaN_agree; now apply zero_div_zeroOrNaN.
Qed.

Lemma agree_opp (a a' : float) : agree a a' -> agree (- a) (- a').
Proof.
  intros [-> | [-> | [<- | [Za Za']]]].
  - now left.
  - right; now left.
  - apply agree_refl.
  - right; right; right. split; now apply opp_zero.
Qed.


(** **** [agree] is [sameUnlessNaN] *)

Lemma SFeqb_refl (x : spec_float) : x <> S754_nan -> SFeqb x x = true.
Proof.
  destruct x as [s|s| |s m e]; intro H; try congruence.
  - reflexivity.
  - now destruct s.
  - unfold SFeqb, SFcompare.
    rewrite Z.compare_refl, Pos.compare_cont_refl. now destruct s.
Qed.

Lemma is_nan_spec (x : float) :
  is_nan x = match Prim2SF x with S754_nan => true | _ => false end.
Proof.
  unfold is_nan. rewrite FloatAxioms.eqb_spec.
  destruct (Prim2SF x) as [s|s| |s m e] eqn:E; try reflexivity.
  - now destruct s.
  - rewrite SFeqb_refl; [reflexivity | discriminate].
Qed.

Lemma SFeqb_eq (x y : spec_float) :
  SFeqb x y = true ->
  x = y \/ (exists s s', x = S754_zero s /\ y = S754_zero s').
Proof.
  unfold SFeqb.
  destruct x as [s|s| |s m e], y as [s'|s'| |s' m' e'];
    try (destruct s); try (destruct s'); cbn;
    try discriminate;
    try (intros _; left; reflexivity);
    try (intros _; right; eexists; eexists; split; reflexivity).
  all: destruct (Z.compare e e') eqn:Ee; try discriminate;
    destruct (Pos.compare_cont Eq m m') eqn:Em; try discriminate;
    intros _; left;
    apply Z.compare_eq in Ee; apply Pos.compare_eq in Em; now subst.
Qed.

Lemma sameUnlessNaN_agree (a b : float) :
  sameUnlessNaN a b = true <-> agree a b.
Proof.
  unfold sameUnlessNaN, agree.
  rewrite !is_nan_spec, FloatAxioms.eqb_spec. split.
  - destruct (Prim2SF a) as [s|s| |s m e] eqn:Ea;
      try (intros _; left; now apply nan_intro).
    all: destruct (Prim2SF b) as [s'|s'| |s' m' e'] eqn:Eb;
      try (intros _; right; left; now apply nan_intro).
    all: cbn [orb]; intro H; apply SFeqb_eq in H;
      destruct H as [H | [z [z' [H H']]]]; try discriminate.
    all: try (right; right; left; apply Prim2SF_inj; congruence).
    all: right; right; right; split;
      [now apply (isZero_intro a s) | now apply (isZero_intro b s')].
  - intros [-> | [-> | [<- | [Za Zb]]]].
    + reflexivity.
    + change (Prim2SF nan) with S754_nan. now destruct (Prim2SF a).
    + destruct (Prim2SF a) as [s|s| |s m e] eqn:E; try reflexivity.
      * now destruct s.
      * cbn [orb]. apply SFeqb_refl. discriminate.
    + destruct (isZero_elim a Za) as [s ->], (isZero_elim b Zb) as [s' ->].
      reflexivity.
Qed.

Ltac finite_solve :=
  first
    [ assumption
    | reflexivity
    | apply isFinite_opp; assumption ].

Ltac zero_solve :=
  first
    [ assumption
    | reflexivity
    | apply add_zero_zero; zero_solve
    | apply sub_zero_zero; zero_solve
    | apply opp_zero; zero_solve
    | apply div_zero_pos; [zero_solve | assumption]
    | solve [apply mul_zero_finite; [zero_solve | finite_solve]]
    | solve [apply mul_finite_zero; [finite_solve | zero_solve]] ].

Ltac zeroOrNaN_solve :=
  first
    [ assumption
    | solve [right; reflexivity]
    | apply zero_mul_zeroOrNaN; assumption
    | apply mul_zero_zeroOrNaN; assumption
    | apply zeroOrNaN_add; zeroOrNaN_solve
    | apply zeroOrNaN_sub; zeroOrNaN_solve
    | apply zeroOrNaN_opp; zeroOrNaN_solve
    | apply zeroOrNaN_div; zeroOrNaN_solve
    | solve [apply zeroOrNaN_mul_l; zeroOrNaN_solve]
    | solve [apply zeroOrNaN_mul_r; zeroOrNaN_solve] ].

Ltac agree_solve :=
  repeat first
    [ assumption
    | apply agree_refl
    | apply zeroOrNaN_agree; solve [zeroOrNaN_solve]
    | apply agree_add
    | apply agree_sub
    | apply agree_mul
    | apply agree_div
    | apply agree_opp ].

(** *** The engine on zeros and NaN *)

Section Stages.
Variable js_sin : float -> float.

#[local] Instance sineNumber : Number float := FloatNumber js_sin.

(** Whether [Math.sin] returns a finite number at the drive phase of
    [time]. *)
Definition sinIsFinite (p : SystemParams float) (time : float) : bool :=
  isFinite (js_sin (drivePhase p time)).

(** A derivative whose four components are zeros. *)
Definition isZeroDerivative (d : Derivative float) : Prop :=
  isZero (dx1 d) = true /\ isZero (dv1 d) = true
  /\ isZero (dx2 d) = true /\ isZero (dv2 d) = true.

(** C4 (as the code has it).  [integrateRK4] does not look at the sign of
    dt: called with dt <= 0 it returns a state, the one its formulas give
    for that dt, and no [InvalidTimestep] or other error. *)
Theorem nonpositive_dt_returns_state (s : SimulationState float)
    (dt : float) (p : SystemParams float) :
  (dt <=? 0) = true ->
  step s dt p = Ok (integrateRK4 s dt p)
  /\ forall e : StepError, step s dt p <> Err e.
Proof.
  intros _. split; [apply step_returns | intro e; apply step_never_fails].
Qed.

(** **** From rest *)

Section AtRest.
Variable p : SystemParams float.
Hypothesis Hm1 : (0 <? m1 p) = true.
Hypothesis Hm2 : (0 <? m2 p) = true.
Hypothesis Hamp : isZero (forceAmplitude p) = true.
Hypothesis Hk1 : isFinite (k1 p) = true.
Hypothesis Hb1 : isFinite (b1 p) = true.
Hypothesis Hk2 : isFinite (k2 p) = true.
Hypothesis Hb2 : isFinite (b2 p) = true.

(** At rest every stage is a derivative of zeros, as long as the offset
    and the sine are finite. *)
Lemma rest_stage (time h : float) (d : Derivative float) :
  isFinite h = true -> sinIsFinite p time = true -> isZeroDerivative d ->
  isZeroDerivative (evaluate initialState time h d p).
Proof.
  intros Hh Hsin (Hdx1 & Hdv1 & Hdx2 & Hdv2).
  unfold sinIsFinite, drivePhase in Hsin.
  unfold isZeroDerivative, evaluate, evaluate_locals, initialState; cbn.
  repeat split; zero_solve.
Qed.

Lemma rest_step (dt : float) :
  (0 <? dt) = true -> isFinite (dt * 0.5) = true ->
  sinIsFinite p 0 = true -> sinIsFinite p (0 + dt * 0.5) = true ->
  sinIsFinite p (0 + dt) = true ->
  integrateRK4 initialState dt p
  = {| t := dt; x1 := 0; v1 := 0; x2 := 0; v2 := 0 |}.
Proof.
  intros Hpos Hhalf Hs1 Hs2 Hs3.
  assert (Hdt : isFinite dt = true) by exact (isFinite_factor dt 0.5 Hhalf).
  unfold integrateRK4. cbn -[evaluate PrimFloat.div initialState].
  set (a := evaluate _ _ _ _ _).
  set (b := evaluate _ _ _ a _).
  set (c := evaluate _ _ _ b _).
  set (d := evaluate _ _ _ c _).
  assert (Ha : isZeroDerivative a).
  { apply rest_stage; [reflexivity | exact Hs1 | repeat split]. }
  assert (Hb : isZeroDerivative b) by (apply rest_stage; assumption).
  assert (Hc : isZeroDerivative c) by (apply rest_stage; assumption).
  assert (Hd : isZeroDerivative d) by (apply rest_stage; assumption).
  destruct Ha as (Ha1 & Ha2 & Ha3 & Ha4), Hb as (Hb1' & Hb2' & Hb3 & Hb4),
    Hc as (Hc1 & Hc2 & Hc3 & Hc4), Hd as (Hd1 & Hd2 & Hd3 & Hd4).
  cbn [initialState t x1 v1 x2 v2 lit0 sineNumber FloatNumber].
  f_equal.
  - now apply zero_add_positive.
  - apply zero_add_zero. zero_solve.
  - apply zero_add_zero. zero_solve.
  - apply zero_add_zero. zero_solve.
  - apply zero_add_zero. zero_solve.
Qed.
End AtRest.

(** C7 (as the code has it).  From the rest state with forceAmplitude = 0,
    one step with dt > 0, m1 > 0 and m2 > 0 returns x1 = v1 = x2 = v2 = 0
    and the time dt, provided dt * 0.5 (hence dt), k1, b1, k2 and b2 are
    finite and [Math.sin] returns a finite number at the drive phase of
    each of the three stage times 0, dt * 0.5 and dt. *)
Theorem rest_is_equilibrium (dt : float) (p : SystemParams float) :
  (0 <? dt) = true -> isFinite (dt * 0.5) = true ->
  (0 <? m1 p) = true -> (0 <? m2 p) = true ->
  (forceAmplitude p =? 0) = true ->
  isFinite (k1 p) = true -> isFinite (b1 p) = true ->
  isFinite (k2 p) = true -> isFinite (b2 p) = true ->
  sinIsFinite p 0 = true -> sinIsFinite p (0 + dt * 0.5) = true ->
  sinIsFinite p (0 + dt) = true ->
  integrateRK4 initialState dt p
  = {| t := dt; x1 := 0; v1 := 0; x2 := 0; v2 := 0 |}.
Proof.
  intros Hpos Hhalf Hm1 Hm2 Hamp Hk1 Hb1 Hk2 Hb2 Hs1 Hs2 Hs3.
  rewrite <- isZero_eqb in Hamp.
  now apply rest_step.
Qed.

(** **** Without coupling *)

Section Decoupled.
Variable p : SystemParams float.
Hypothesis Hk2 : isZero (k2 p) = true.
Hypothesis Hb2 : isZero (b2 p) = true.






End Decoupled.

End Stages.

(** *** Concrete inputs

    [Math.sin] enters a step through its values at three drive phases.
    ECMAScript fixes two values of it, sin(+0) = +0 and sin(+Infinity) =
    NaN; the inputs below are chosen so that no other value is read, or
    so that only its being finite matters. *)

Local Abbreviation eval js_sin := (evaluate (N := FloatNumber js_sin)).
Local Abbreviation spec_rk4 js_sin := (classicRK4 (N := FloatNumber js_sin)).

Lemma evaluate_sin_ext (js_sin js_sin' : float -> float)
    (s : SimulationState float) (time h : float) (d : Derivative float)
    (p : SystemParams float) :
  js_sin (drivePhase p time) = js_sin' (drivePhase p time) ->
  eval js_sin s time h d p = eval js_sin' s time h d p.
Proof.
  unfold drivePhase. intro H.
  unfold evaluate, evaluate_locals.
  cbn [Math_sin Math_PI lit2 mul add sub div neg FloatNumber
       x1' v1' x2' v2' Force springForce2 dampingForce2 F_net_1 F_net_2].
  now rewrite H.
Qed.

(** Two sines that agree at the three stage phases give the same step. *)
Lemma integrateRK4_sin_ext (js_sin js_sin' : float -> float)
    (s : SimulationState float) (dt : float) (p : SystemParams float) :
  js_sin (drivePhase p (t s)) = js_sin' (drivePhase p (t s)) ->
  js_sin (drivePhase p (t s + dt * 0.5))
  = js_sin' (drivePhase p (t s + dt * 0.5)) ->
  js_sin (drivePhase p (t s + dt)) = js_sin' (drivePhase p (t s + dt)) ->
  rk4 js_sin s dt p = rk4 js_sin' s dt p.
Proof.
  intros H1 H2 H3. unfold integrateRK4.
  cbn [lit0 lit0_5 lit1 lit2 lit6 mul add sub div neg FloatNumber].
  rewrite (evaluate_sin_ext js_sin js_sin' s (t s) 0 _ p H1).
  set (a := eval js_sin' s (t s) 0 _ p).
  rewrite (evaluate_sin_ext js_sin js_sin' s _ (dt * 0.5) a p H2).
  set (b := eval js_sin' s _ _ a p).
  rewrite (evaluate_sin_ext js_sin js_sin' s _ (dt * 0.5) b p H2).
  set (c := eval js_sin' s _ _ b p).
  rewrite (evaluate_sin_ext js_sin js_sin' s _ dt c p H3).
  reflexivity.
Qed.

(** The sine on the phase 0, the only one read when the frequency is 0. *)
Definition sinAtZero (x : float) : float := 0.

Lemma sin_at_phase_zero (js_sin : float -> float) (p : SystemParams float)
    (time : float) :
  js_sin 0 = 0 -> drivePhase p time = 0 ->
  js_sin (drivePhase p time) = sinAtZero (drivePhase p time).
Proof. intros Hsin ->. exact Hsin. Qed.

Lemma float_neq (a b : float) : Prim2SF a <> Prim2SF b -> a <> b.
Proof. intros H E. apply H. now rewrite E. Qed.

(** C2, as stated, fails in binary64: from [movingState], with the drive
    off, the v1 that [integrateRK4] returns (-0.2014617543890625) is not
    the v1 of the update the claim writes, v1 plus dt times
    (s1 + 2 s2 + 2 s3 + s4) / 6 (-0.20146175438906253); the stages s1..s4
    are the same numbers on both sides. *)
Lemma weighting_is_not_the_quotient :
  stateIsFinite movingState = true
  /\ forall js_sin : float -> float,
      js_sin 0 = 0 ->
      v1 (rk4 js_sin movingState PHYSICS_DT ZERO_FREQUENCY_PARAMS)
      <> v1 (spec_rk4 js_sin movingState PHYSICS_DT ZERO_FREQUENCY_PARAMS).
Proof.
  split; [reflexivity |]. intros js_sin Hsin.
  pose proof (sin_at_phase_zero js_sin ZERO_FREQUENCY_PARAMS) as E.
  rewrite (integrateRK4_sin_ext js_sin sinAtZero)
    by (apply E; [exact Hsin | reflexivity]).
  unfold classicRK4. cbv zeta.
  rewrite (evaluate_sin_ext js_sin sinAtZero _ (t movingState))
    by (apply E; [exact Hsin | reflexivity]).
  set (s1 := eval sinAtZero _ _ _ _ _).
  rewrite (evaluate_sin_ext js_sin sinAtZero _ _ _ s1)
    by (apply E; [exact Hsin | reflexivity]).
  set (s2 := eval sinAtZero _ _ _ _ _).
  rewrite (evaluate_sin_ext js_sin sinAtZero _ _ _ s2)
    by (apply E; [exact Hsin | reflexivity]).
  set (s3 := eval sinAtZero _ _ _ _ _).
  rewrite (evaluate_sin_ext js_sin sinAtZero _ _ _ s3)
    by (apply E; [exact Hsin | reflexivity]).
  subst s1 s2 s3.
  apply float_neq. vm_compute. discriminate.
Qed.

Lemma nonpositive_dt_returns_state_witness :
  (0 <=? 0) = true
  /\ forall js_sin : float -> float,
      rk4_step js_sin (rest js_sin) 0 DEFAULT_PARAMS
      = Ok (rk4 js_sin (rest js_sin) 0 DEFAULT_PARAMS).
Proof.
  split; [reflexivity |]. intro js_sin.
  exact (proj1 (nonpositive_dt_returns_state js_sin (rest js_sin) 0
                  DEFAULT_PARAMS eq_refl)).
Defined.

(** C4, as stated, fails: a step of length -0.01 from rest, with the
    default parameters, is not an [InvalidTimestep] error; it returns a
    state, whose time is -0.01. *)
Lemma negative_dt_is_accepted :
  (- PHYSICS_DT <=? 0) = true
  /\ forall js_sin : float -> float,
      rk4_step js_sin (rest js_sin) (- PHYSICS_DT) DEFAULT_PARAMS
      = Ok (rk4 js_sin (rest js_sin) (- PHYSICS_DT) DEFAULT_PARAMS)
      /\ rk4_step js_sin (rest js_sin) (- PHYSICS_DT) DEFAULT_PARAMS
         <> Err InvalidTimestep
      /\ t (rk4 js_sin (rest js_sin) (- PHYSICS_DT) DEFAULT_PARAMS)
         = - PHYSICS_DT.
Proof.
  split; [reflexivity |]. intro js_sin.
  split; [reflexivity |]. split; [discriminate | reflexivity].
Qed.

Lemma rest_is_equilibrium_witness :
  (0 <? PHYSICS_DT) = true
  /\ (forall js_sin : float -> float,
        js_sin 0 = 0 ->
        rk4 js_sin (rest js_sin) PHYSICS_DT ZERO_FREQUENCY_PARAMS
        = {| t := PHYSICS_DT; x1 := 0; v1 := 0; x2 := 0; v2 := 0 |})
  /\ (forall js_sin : float -> float,
        (forall x, isFinite x = true -> isFinite (js_sin x) = true) ->
        rk4 js_sin (rest js_sin) PHYSICS_DT UNDRIVEN_PARAMS
        = {| t := PHYSICS_DT; x1 := 0; v1 := 0; x2 := 0; v2 := 0 |}).
Proof.
  split; [reflexivity |]. split.
  - intros js_sin Hsin.
    assert (Hfin : forall time,
              drivePhase ZERO_FREQUENCY_PARAMS time = 0 ->
              sinIsFinite js_sin ZERO_FREQUENCY_PARAMS time = true).
    { intros time E. unfold sinIsFinite. now rewrite E, Hsin. }
    apply (rest_is_equilibrium js_sin PHYSICS_DT ZERO_FREQUENCY_PARAMS);
      try reflexivity; apply Hfin; reflexivity.
  - intros js_sin Hfin.
    apply (rest_is_equilibrium js_sin PHYSICS_DT UNDRIVEN_PARAMS);
      try reflexivity; unfold sinIsFinite; apply Hfin; reflexivity.
Defined.

(** C7, as stated, fails.  The state returned from rest is not the rest
    state: its time is dt.  And not every dt > 0 and parameter set will
    do: with dt = 1e308 and the default frequency the drive phase of the
    second stage overflows, its sine is NaN, 0 * NaN is NaN, and the step
    leaves the equilibrium for x1 = NaN; with k1 = Infinity the spring
    force -k1 * 0 is NaN, and so is the returned v1. *)
Lemma rest_step_is_not_rest :
  ((forceAmplitude UNDRIVEN_PARAMS =? 0) = true
   /\ (0 <? m1 UNDRIVEN_PARAMS) = true /\ (0 <? m2 UNDRIVEN_PARAMS) = true
   /\ (0 <? PHYSICS_DT) = true
   /\ forall js_sin : float -> float,
       rk4 js_sin (rest js_sin) PHYSICS_DT UNDRIVEN_PARAMS <> rest js_sin)
  /\ ((0 <? HUGE_DT) = true /\ isFinite HUGE_DT = true
      /\ forall js_sin : float -> float,
          js_sin infinity = nan ->
          x1 (rk4 js_sin (rest js_sin) HUGE_DT UNDRIVEN_PARAMS) = nan)
  /\ ((forceAmplitude RIGID_PARAMS =? 0) = true
      /\ (0 <? m1 RIGID_PARAMS) = true /\ (0 <? m2 RIGID_PARAMS) = true
      /\ forall js_sin : float -> float,
          isFinite (v1 (rk4 js_sin (rest js_sin) PHYSICS_DT RIGID_PARAMS))
          = false).
Proof.
  split; [| split].
  - do 4 (split; [reflexivity |]).
    intros js_sin Heq. apply (f_equal t) in Heq.
    revert Heq. apply float_neq. vm_compute. discriminate.
  - do 2 (split; [reflexivity |]).
    intros js_sin Hinf.
    set (s := rest js_sin).
    set (a := eval js_sin s (t s) 0 zeroDerivative UNDRIVEN_PARAMS).
    set (b := eval js_sin s (t s + HUGE_DT * 0.5) (HUGE_DT * 0.5) a
                UNDRIVEN_PARAMS).
    set (c := eval js_sin s (t s + HUGE_DT * 0.5) (HUGE_DT * 0.5) b
                UNDRIVEN_PARAMS).
    set (d := eval js_sin s (t s + HUGE_DT) HUGE_DT c UNDRIVEN_PARAMS).
    change (x1 s + (1 / 6) * (dx1 a + 2 * (dx1 b + dx1 c) + dx1 d) * HUGE_DT
            = nan).
    assert (Hb : dv1 b = nan).
    { change (dv1 b)
        with ((- k1 UNDRIVEN_PARAMS * (x1 s + dx1 a * (HUGE_DT * 0.5))
               - b1 UNDRIVEN_PARAMS * (v1 s + dv1 a * (HUGE_DT * 0.5))
               + k2 UNDRIVEN_PARAMS
                 * (x2 s + dx2 a * (HUGE_DT * 0.5)
                    - (x1 s + dx1 a * (HUGE_DT * 0.5)))
               + b2 UNDRIVEN_PARAMS
                 * (v2 s + dv2 a * (HUGE_DT * 0.5)
                    - (v1 s + dv1 a * (HUGE_DT * 0.5)))
               + 0 * js_sin infinity) / m1 UNDRIVEN_PARAMS).
      now rewrite Hinf, mul_nan_r, add_nan_r, div_nan_l. }
    assert (Hc : dx1 c = nan).
    { change (dx1 c) with (v1 s + dv1 b * (HUGE_DT * 0.5)).
      now rewrite Hb, mul_nan_l, add_nan_r. }
    now rewrite Hc, add_nan_r, mul_nan_r, add_nan_r, add_nan_l, mul_nan_r,
      mul_nan_l, add_nan_r.
  - do 3 (split; [reflexivity |]).
    intro js_sin. apply v1_not_finite.
    unfold evaluate, evaluate_locals, initialState; cbn.
    now apply div_not_finite_l, add_not_finite_l.
Qed.



End Binary64.

(** * Further properties of the engine and of its callers *)

From Stdlib Require Import List Arith Lia.
From Stdlib Require String.

(** ** The undriven system over the reals *)

Module Dynamics.
Import Real.
Local Open Scope R_scope.

(** Componentwise [a u + b w]. *)
Definition combine (a : R) (u : Derivative R) (b : R) (w : Derivative R) :
    Derivative R :=
  {| dx1 := a * dx1 u + b * dx1 w; dv1 := a * dv1 u + b * dv1 w;
     dx2 := a * dx2 u + b * dx2 w; dv2 := a * dv2 u + b * dv2 w |}.

(** What [evaluate] computes at a point when the drive is off, damping
    included (see [evaluate_undriven]). *)
Definition damped_field (p : SystemParams R) (u : Derivative R) :
    Derivative R :=
  {| dx1 := dv1 u;
     dv1 := (- k1 p * dx1 u - b1 p * dv1 u
             + k2 p * (dx2 u - dx1 u) + b2 p * (dv2 u - dv1 u)) / m1 p;
     dx2 := dv2 u;
     dv2 := (- (k2 p * (dx2 u - dx1 u)) - b2 p * (dv2 u - dv1 u)) / m2 p |}.

(** The degree-4 Taylor polynomial of the flow of [damped_field], in Horner
    form: y + dt A y + dt^2/2 A^2 y + dt^3/6 A^3 y + dt^4/24 A^4 y. *)
Definition taylor4 (p : SystemParams R) (dt : R) (y : Derivative R) :
    Derivative R :=
  let a1 := damped_field p y in
  let a2 := damped_field p a1 in
  let a3 := damped_field p a2 in
  let a4 := damped_field p a3 in
  axpy y dt (axpy a1 (dt / 2) (axpy a2 (dt / 3) (axpy a3 (dt / 4) a4))).

Section Undriven.
Variable p : SystemParams R.
Hypothesis Hamp : forceAmplitude p = 0.

Lemma evaluate_undriven s time h d :
  evaluate s time h d p = damped_field p (axpy (phase s) h d).
Proof.
  unfold evaluate, evaluate_locals, damped_field, axpy, phase; cbn.
  rewrite Hamp. f_equal; unfold Rdiv; ring.
Qed.

Lemma damped_field_axpy u h w :
  damped_field p (axpy u h w)
  = axpy (damped_field p u) h (damped_field p w).
Proof. unfold damped_field, axpy; cbn. f_equal; unfold Rdiv; ring. Qed.

Lemma damped_field_combine a u b w :
  damped_field p (combine a u b w)
  = combine a (damped_field p u) b (damped_field p w).
Proof. unfold damped_field, combine; cbn. f_equal; unfold Rdiv; ring. Qed.

Lemma axpy_combine a u b w h u' w' :
  axpy (combine a u b w) h (combine a u' b w')
  = combine a (axpy u h u') b (axpy w h w').
Proof. unfold axpy, combine; cbn. f_equal; ring. Qed.

Lemma axpy_zero u w : axpy u 0 w = u.
Proof. destruct u; unfold axpy; cbn. f_equal; ring. Qed.

Lemma undriven_step_taylor s dt :
  phase (integrateRK4 s dt p) = taylor4 p dt (phase s).
Proof.
  unfold taylor4, integrateRK4. cbn -[evaluate]. fold zeroDerivative.
  rewrite !evaluate_undriven, !damped_field_axpy, !axpy_zero.
  set (a1 := damped_field p (phase s)).
  set (a2 := damped_field p a1).
  set (a3 := damped_field p a2).
  set (a4 := damped_field p a3).
  clearbody a1 a2 a3 a4.
  unfold phase, axpy; cbn.
  replace 0.5 with (/ 2) by lra. f_equal; field.
Qed.

Lemma taylor4_combine dt a u b w :
  taylor4 p dt (combine a u b w)
  = combine a (taylor4 p dt u) b (taylor4 p dt w).
Proof.
  unfold taylor4. cbv zeta.
  now rewrite !damped_field_combine, !axpy_combine.
Qed.

End Undriven.

(** *** The step of the undriven system *)

(** With the drive off (and non-zero masses) one step of [integrateRK4]
    is exactly the degree-4 Taylor polynomial of the flow of the linear
    vector field that [evaluate] computes at offset 0. *)
Theorem undriven_step_is_taylor4
    (p : SystemParams R) (s : SimulationState R) (dt : R) :
  m1 p > 0 -> m2 p > 0 -> forceAmplitude p = 0 ->
  damped_field p (phase s) = evaluate s (t s) 0 zeroDerivative p
  /\ phase (integrateRK4 s dt p) = taylor4 p dt (phase s).
Proof.
  intros _ _ Hamp. split.
  - now rewrite evaluate_undriven, axpy_zero.
  - now apply undriven_step_taylor.
Qed.

Lemma undriven_step_is_taylor4_witness :
  dx1 (taylor4 UNDRIVEN_PARAMS PHYSICS_DT (phase movingState))
  = x1 (integrateRK4 movingState PHYSICS_DT UNDRIVEN_PARAMS).
Proof.
  assert (H1 : m1 UNDRIVEN_PARAMS > 0) by (cbn; lra).
  assert (H2 : m2 UNDRIVEN_PARAMS > 0) by (cbn; lra).
  destruct (undriven_step_is_taylor4 UNDRIVEN_PARAMS movingState PHYSICS_DT
              H1 H2 eq_refl) as [_ Hstep].
  now rewrite <- Hstep.
Defined.

(** Superposition: with the drive off, the step maps a linear combination
    of two states (positions and velocities) to the same combination of
    their images. *)
Theorem undriven_superposition
    (p : SystemParams R) (dt a b : R) (s s' s'' : SimulationState R) :
  m1 p > 0 -> m2 p > 0 -> forceAmplitude p = 0 ->
  phase s'' = combine a (phase s) b (phase s') ->
  phase (integrateRK4 s'' dt p)
  = combine a (phase (integrateRK4 s dt p)) b (phase (integrateRK4 s' dt p)).
Proof.
  intros _ _ Hamp Hcomb.
  now rewrite !(undriven_step_taylor p Hamp), Hcomb, taylor4_combine.
Qed.

(** A second state in motion, and 2 [movingState] + 3 [otherState]. *)
Definition otherState : SimulationState R :=
  {| t := 1; x1 := -0.02; v1 := 0.3; x2 := 0.01; v2 := -0.1 |}.

Definition combinedState : SimulationState R :=
  {| t := 7; x1 := -0.04; v1 := 0.5; x2 := 0.09; v2 := -0.1 |}.

Lemma undriven_superposition_witness :
  phase (integrateRK4 combinedState PHYSICS_DT UNDRIVEN_PARAMS)
  = combine 2 (phase (integrateRK4 movingState PHYSICS_DT UNDRIVEN_PARAMS))
      3 (phase (integrateRK4 otherState PHYSICS_DT UNDRIVEN_PARAMS)).
Proof.
  assert (H1 : m1 UNDRIVEN_PARAMS > 0) by (cbn; lra).
  assert (H2 : m2 UNDRIVEN_PARAMS > 0) by (cbn; lra).
  apply (undriven_superposition UNDRIVEN_PARAMS PHYSICS_DT 2 3 movingState
           otherState _ H1 H2 eq_refl).
  unfold phase, combine, movingState, otherState, combinedState; cbn.
  f_equal; lra.
Defined.

(** *** Energy *)

(** Power balance of the equations of motion: along the derivative that
    [evaluate] returns at a state, the mechanical energy changes at the
    rate F v1 - b1 v1^2 - b2 (v2 - v1)^2; the springs and the coupling
    exchange energy but neither create nor destroy it. *)
Theorem evaluate_power_balance
    (p : SystemParams R) (s : SimulationState R) (time : R) :
  m1 p > 0 -> m2 p > 0 ->
  let d := evaluate s time 0 zeroDerivative p in
  let F := forceAmplitude p * sin (2 * PI * forceFrequency p * time) in
  m1 p * v1 s * dv1 d + k1 p * x1 s * dx1 d
  + m2 p * v2 s * dv2 d + k2 p * (x2 s - x1 s) * (dx2 d - dx1 d)
  = F * v1 s - b1 p * v1 s ^ 2 - b2 p * (v2 s - v1 s) ^ 2.
Proof.
  intros H1 H2 d F. subst d F.
  unfold evaluate, evaluate_locals, zeroDerivative; cbn.
  field. split; lra.
Qed.

Lemma evaluate_power_balance_witness :
  let d := evaluate movingState 0.25 0 zeroDerivative UNDRIVEN_PARAMS in
  50 * -0.2 * dv1 d + 2000 * 0.01 * dx1 d
  + 5 * 0.1 * dv2 d + 200 * (0.03 - 0.01) * (dx2 d - dx1 d)
  = -1.75.
Proof.
  assert (H1 : m1 UNDRIVEN_PARAMS > 0) by (cbn; lra).
  assert (H2 : m2 UNDRIVEN_PARAMS > 0) by (cbn; lra).
  pose proof (evaluate_power_balance UNDRIVEN_PARAMS movingState 0.25 H1 H2)
    as Hbal.
  cbv zeta in *. cbn [m1 k1 b1 m2 k2 b2 forceAmplitude forceFrequency
    UNDRIVEN_PARAMS with_drive DEFAULT_PARAMS x1 v1 x2 v2 movingState]
    in Hbal.
  lra.
Defined.

(** The exact energy balance of one step without damping and drive:
    E' = E - dt^6/72 E(A^3 y) + dt^8/576 E(A^4 y), where A is the vector
    field of [evaluate] and E(u) = form u u / 2. *)
Theorem undamped_energy_balance
    (p : SystemParams R) (s : SimulationState R) (dt : R) :
  m1 p > 0 -> m2 p > 0 ->
  b1 p = 0 -> b2 p = 0 -> forceAmplitude p = 0 ->
  let a3 := vfield p (vfield p (vfield p (phase s))) in
  let a4 := vfield p a3 in
  vfield p (phase s) = evaluate s (t s) 0 zeroDerivative p
  /\ energy p s = form p (phase s) (phase s) / 2
  /\ energy p (integrateRK4 s dt p)
     = energy p s - dt ^ 6 / 72 * (form p a3 a3 / 2)
       + dt ^ 8 / 576 * (form p a4 a4 / 2).
Proof.
  intros H1 H2 Hb1 Hb2 Hamp a3 a4.
  split; [symmetry; now apply first_stage |].
  split; [now apply energy_form |].
  subst a3 a4. rewrite (energy_step p H1 H2 Hb1 Hb2 Hamp). cbv zeta. field.
Qed.

Lemma undamped_energy_balance_witness :
  energy CONSERVATIVE_PARAMS
    (integrateRK4 displacedState PHYSICS_DT CONSERVATIVE_PARAMS)
  < energy CONSERVATIVE_PARAMS displacedState.
Proof.
  assert (H1 : m1 CONSERVATIVE_PARAMS > 0) by (cbn; lra).
  assert (H2 : m2 CONSERVATIVE_PARAMS > 0) by (cbn; lra).
  destruct (undamped_energy_balance CONSERVATIVE_PARAMS displacedState
              PHYSICS_DT H1 H2 eq_refl eq_refl eq_refl) as [_ [_ Hbal]].
  rewrite Hbal.
  unfold energy, form, vfield, phase, displacedState, CONSERVATIVE_PARAMS,
    PHYSICS_DT;
    cbn [dx1 dv1 dx2 dv2 x1 v1 x2 v2 m1 k1 m2 k2].
  lra.
Defined.

End Dynamics.

(** ** NaN and infinities never leave the state (binary64) *)

Module NonFinite.
Import Binary64.
Local Open Scope float_scope.

Section WithSin.
Variable js_sin : float -> float.

#[local] Instance jsNumber : Number float := FloatNumber js_sin.

(** Each component of the returned state is the old component plus an
    increment (lines 62-66), and a sum with a non-finite summand is not
    finite. *)
Lemma step_keeps_non_finite (s : SimulationState float) (dt : float)
    (p : SystemParams float) :
  stateIsFinite s = false -> stateIsFinite (integrateRK4 s dt p) = false.
Proof.
  unfold stateIsFinite. intro H.
  repeat (apply andb_false_iff in H; destruct H as [H | H]).
  - assert (Ht : isFinite (t (integrateRK4 s dt p)) = false)
      by (apply add_not_finite_l; exact H).
    now rewrite Ht.
  - assert (Hx : isFinite (x1 (integrateRK4 s dt p)) = false)
      by (apply add_not_finite_l; exact H).
    now rewrite Hx, andb_false_r.
  - assert (Hv : isFinite (v1 (integrateRK4 s dt p)) = false)
      by (apply add_not_finite_l; exact H).
    now rewrite Hv, andb_false_r.
  - assert (Hx : isFinite (x2 (integrateRK4 s dt p)) = false)
      by (apply add_not_finite_l; exact H).
    now rewrite Hx, andb_false_r.
  - assert (Hv : isFinite (v2 (integrateRK4 s dt p)) = false)
      by (apply add_not_finite_l; exact H).
    now rewrite Hv, andb_false_r.
Qed.

Lemma run_keeps_non_finite (n : nat) (s : SimulationState float)
    (dt : float) (p : SystemParams float) :
  stateIsFinite s = false -> stateIsFinite (run n s dt p) = false.
Proof.
  revert s. induction n as [| n IH]; intros s H; [exact H |].
  cbn [run]. now apply IH, step_keeps_non_finite.
Qed.

(** A first-stage acceleration that is not finite reaches the returned
    position within the same step, through the second stage's velocity. *)
Lemma x1_not_finite (s : SimulationState float) (dt : float)
    (p : SystemParams float) :
  isFinite (dv1 (evaluate s (t s) 0 zeroDerivative p)) = false ->
  isFinite (x1 (integrateRK4 s dt p)) = false.
Proof.
  intro Ha.
  set (a := evaluate s (t s) 0 zeroDerivative p) in *.
  set (b := evaluate s (t s + dt * 0.5) (dt * 0.5) a p).
  set (c := evaluate s (t s + dt * 0.5) (dt * 0.5) b p).
  set (d := evaluate s (t s + dt) dt c p).
  change (isFinite
            (x1 s + (1 / 6) * (dx1 a + 2 * (dx1 b + dx1 c) + dx1 d) * dt)
          = false).
  assert (Hb : isFinite (dx1 b) = false).
  { change (isFinite (v1 s + dv1 a * (dt * 0.5)) = false).
    now apply add_not_finite_r, mul_not_finite_l. }
  apply add_not_finite_r, mul_not_finite_l, mul_not_finite_r.
  now apply add_not_finite_l, add_not_finite_r, mul_not_finite_r,
    add_not_finite_l.
Qed.

Lemma x2_not_finite (s : SimulationState float) (dt : float)
    (p : SystemParams float) :
  isFinite (dv2 (evaluate s (t s) 0 zeroDerivative p)) = false ->
  isFinite (x2 (integrateRK4 s dt p)) = false.
Proof.
  intro Ha.
  set (a := evaluate s (t s) 0 zeroDerivative p) in *.
  set (b := evaluate s (t s + dt * 0.5) (dt * 0.5) a p).
  set (c := evaluate s (t s + dt * 0.5) (dt * 0.5) b p).
  set (d := evaluate s (t s + dt) dt c p).
  change (isFinite
            (x2 s + (1 / 6) * (dx2 a + 2 * (dx2 b + dx2 c) + dx2 d) * dt)
          = false).
  assert (Hb : isFinite (dx2 b) = false).
  { change (isFinite (v2 s + dv2 a * (dt * 0.5)) = false).
    now apply add_not_finite_r, mul_not_finite_l. }
  apply add_not_finite_r, mul_not_finite_l, mul_not_finite_r.
  now apply add_not_finite_l, add_not_finite_r, mul_not_finite_r,
    add_not_finite_l.
Qed.

(** Once a component of the state is NaN or an infinity, the state has
    such a component after every later frame, whatever the parameters and
    the time step: only a reset brings the simulation back. *)
Theorem non_finite_is_permanent (n : nat) (s : SimulationState float)
    (dt : float) (p : SystemParams float) :
  stateIsFinite s = false -> stateIsFinite (run n s dt p) = false.
Proof. apply run_keeps_non_finite. Qed.

(** With a zero mass the position that the chart plots is NaN or an
    infinity from the first frame on: x1 for m1 = 0, x2 for m2 = 0, and the
    state is not finite after any number n + 1 of frames. *)
Theorem zero_mass_breaks_every_frame (n : nat) (s : SimulationState float)
    (dt : float) (p : SystemParams float) :
  (m1 p =? 0) = true \/ (m2 p =? 0) = true ->
  ((m1 p =? 0) = true -> isFinite (x1 (integrateRK4 s dt p)) = false)
  /\ ((m2 p =? 0) = true -> isFinite (x2 (integrateRK4 s dt p)) = false)
  /\ stateIsFinite (run (S n) s dt p) = false.
Proof.
  intro Hm.
  assert (H1 : (m1 p =? 0) = true ->
               isFinite (x1 (integrateRK4 s dt p)) = false).
  { intro H. apply x1_not_finite. unfold evaluate; cbn [dv1].
    now apply div_by_zero. }
  assert (H2 : (m2 p =? 0) = true ->
               isFinite (x2 (integrateRK4 s dt p)) = false).
  { intro H. apply x2_not_finite. unfold evaluate; cbn [dv2].
    now apply div_by_zero. }
  split; [exact H1 |]. split; [exact H2 |].
  cbn [run]. apply run_keeps_non_finite.
  unfold stateIsFinite.
  destruct Hm as [H | H].
  - rewrite (H1 H). now rewrite andb_false_r.
  - rewrite (H2 H). now rewrite andb_false_r.
Qed.
End WithSin.

Local Abbreviation rk4 js_sin := (integrateRK4 (N := FloatNumber js_sin)).
Local Abbreviation frames js_sin := (run (N := FloatNumber js_sin)).
Local Abbreviation rest js_sin := (initialState (N := FloatNumber js_sin)).

Lemma non_finite_is_permanent_witness :
  stateIsFinite
    {| t := 0; x1 := nan; v1 := 0; x2 := 0; v2 := 0 |} = false
  /\ forall js_sin : float -> float,
      stateIsFinite
        (frames js_sin 600
           {| t := 0; x1 := nan; v1 := 0; x2 := 0; v2 := 0 |}
           PHYSICS_DT DEFAULT_PARAMS) = false.
Proof.
  split; [reflexivity |]. intro js_sin.
  exact (non_finite_is_permanent js_sin 600
           {| t := 0; x1 := nan; v1 := 0; x2 := 0; v2 := 0 |}
           PHYSICS_DT DEFAULT_PARAMS eq_refl).
Defined.

Lemma zero_mass_breaks_every_frame_witness :
  (m1 ZERO_M1_PARAMS =? 0) = true
  /\ forall js_sin : float -> float,
      isFinite (x1 (rk4 js_sin (rest js_sin) PHYSICS_DT ZERO_M1_PARAMS))
      = false
      /\ stateIsFinite
           (frames js_sin 600 (rest js_sin) PHYSICS_DT ZERO_M1_PARAMS)
         = false.
Proof.
  split; [reflexivity |]. intro js_sin.
  destruct (zero_mass_breaks_every_frame js_sin 599 (rest js_sin)
              PHYSICS_DT ZERO_M1_PARAMS (or_introl eq_refl))
    as [Hx [_ Hrun]].
  split; [exact (Hx eq_refl) | exact Hrun].
Defined.
End NonFinite.

(** ** The undriven system in binary64 *)

Module Undriven.
Import Binary64.
Local Open Scope float_scope.

(** [x1], [v1], [x2] and [v2] of two states agree; the times may differ. *)
Definition agreeState (s s' : SimulationState float) : Prop :=
  agree (x1 s) (x1 s') /\ agree (v1 s) (v1 s')
  /\ agree (x2 s) (x2 s') /\ agree (v2 s) (v2 s').

Definition agreeDerivative (d d' : Derivative float) : Prop :=
  agree (dx1 d) (dx1 d') /\ agree (dv1 d) (dv1 d')
  /\ agree (dx2 d) (dx2 d') /\ agree (dv2 d) (dv2 d').

(** A number that is +0 or NaN, and a state whose positions and velocities
    are. *)
Definition restOrNaN (x : float) : Prop := x = 0 \/ x = nan.

Definition atRestOrNaN (s : SimulationState float) : Prop :=
  restOrNaN (x1 s) /\ restOrNaN (v1 s)
  /\ restOrNaN (x2 s) /\ restOrNaN (v2 s).

Lemma restOrNaN_zeroOrNaN (x : float) : restOrNaN x -> zeroOrNaN x.
Proof. intros [-> | ->]; [now right | now left]. Qed.

Lemma restOrNaN_add (x z : float) :
  restOrNaN x -> zeroOrNaN z -> restOrNaN (x + z).
Proof.
  intros [-> | ->] [-> | Hz].
  - right. apply add_nan_r.
  - left. now apply zero_add_zero.
  - right. apply add_nan_l.
  - right. apply add_nan_l.
Qed.

Section WithSin.
Variable js_sin : float -> float.

#[local] Instance jsNumber : Number float := FloatNumber js_sin.

Section Silent.
Variable p : SystemParams float.
Hypothesis Hamp : isZero (forceAmplitude p) = true.

(** With the drive off [evaluate] reads the time only through the sine,
    which is multiplied by 0. *)
Lemma evaluate_agree (s s' : SimulationState float) (time time' h : float)
    (d d' : Derivative float) :
  agreeState s s' -> agreeDerivative d d' ->
  agreeDerivative (evaluate s time h d p) (evaluate s' time' h d' p).
Proof.
  intros (Hx1 & Hv1 & Hx2 & Hv2) (Hdx1 & Hdv1 & Hdx2 & Hdv2).
  unfold agreeDerivative, evaluate, evaluate_locals; cbn.
  repeat split; agree_solve.
Qed.

Lemma step_agree (s s' : SimulationState float) (dt : float) :
  agreeState s s' ->
  agreeState (integrateRK4 s dt p) (integrateRK4 s' dt p).
Proof.
  intro Hs. unfold integrateRK4. cbn -[evaluate PrimFloat.div].
  assert (H0 : agreeDerivative zeroDerivative zeroDerivative)
    by (repeat split; apply agree_refl).
  set (a := evaluate s _ _ _ _). set (a' := evaluate s' _ _ _ _).
  pose proof (evaluate_agree s s' (t s) (t s') 0 _ _ Hs H0) as Ha.
  change (agreeDerivative a a') in Ha.
  set (b := evaluate s _ _ a _). set (b' := evaluate s' _ _ a' _).
  pose proof (evaluate_agree s s' (t s + dt * 0.5) (t s' + dt * 0.5)
                (dt * 0.5) a a' Hs Ha) as Hb.
  fold b b' in Hb.
  set (c := evaluate s _ _ b _). set (c' := evaluate s' _ _ b' _).
  pose proof (evaluate_agree s s' (t s + dt * 0.5) (t s' + dt * 0.5)
                (dt * 0.5) b b' Hs Hb) as Hc.
  fold c c' in Hc.
  set (d := evaluate s _ _ c _). set (d' := evaluate s' _ _ c' _).
  pose proof (evaluate_agree s s' (t s + dt) (t s' + dt) dt c c' Hs Hc)
    as Hd.
  fold d d' in Hd.
  destruct Hs as (Hx1 & Hv1 & Hx2 & Hv2), Ha as (Ha1 & Ha2 & Ha3 & Ha4),
    Hb as (Hb1 & Hb2 & Hb3 & Hb4), Hc as (Hc1 & Hc2 & Hc3 & Hc4),
    Hd as (Hd1 & Hd2 & Hd3 & Hd4).
  unfold agreeState; cbn [x1 v1 x2 v2].
  repeat split; agree_solve.
Qed.

Lemma run_agree (n : nat) (s s' : SimulationState float) (dt : float) :
  agreeState s s' -> agreeState (run n s dt p) (run n s' dt p).
Proof.
  revert s s'. induction n as [| n IH]; intros s s' Hs; [exact Hs |].
  cbn [run]. now apply IH, step_agree.
Qed.

(** With the drive off, zeros and NaN in give zeros and NaN out. *)
Lemma evaluate_zeroOrNaN (s : SimulationState float) (time h : float)
    (d : Derivative float) :
  zeroOrNaN (x1 s) -> zeroOrNaN (v1 s) ->
  zeroOrNaN (x2 s) -> zeroOrNaN (v2 s) ->
  zeroOrNaN (dx1 d) -> zeroOrNaN (dv1 d) ->
  zeroOrNaN (dx2 d) -> zeroOrNaN (dv2 d) ->
  let r := evaluate s time h d p in
  zeroOrNaN (dx1 r) /\ zeroOrNaN (dv1 r)
  /\ zeroOrNaN (dx2 r) /\ zeroOrNaN (dv2 r).
Proof.
  intros Hx1 Hv1 Hx2 Hv2 Hdx1 Hdv1 Hdx2 Hdv2 r. subst r.
  unfold evaluate, evaluate_locals; cbn.
  repeat split; zeroOrNaN_solve.
Qed.

Lemma step_atRestOrNaN (s : SimulationState float) (dt : float) :
  atRestOrNaN s -> atRestOrNaN (integrateRK4 s dt p).
Proof.
  intros (Hx1 & Hv1 & Hx2 & Hv2).
  pose proof (restOrNaN_zeroOrNaN _ Hx1) as Zx1.
  pose proof (restOrNaN_zeroOrNaN _ Hv1) as Zv1.
  pose proof (restOrNaN_zeroOrNaN _ Hx2) as Zx2.
  pose proof (restOrNaN_zeroOrNaN _ Hv2) as Zv2.
  unfold integrateRK4. cbn -[evaluate PrimFloat.div].
  set (a := evaluate s _ _ _ _).
  destruct (evaluate_zeroOrNaN s (t s) 0 zeroDerivative Zx1 Zv1 Zx2 Zv2)
    as (Ha1 & Ha2 & Ha3 & Ha4); try (now right).
  fold a in Ha1, Ha2, Ha3, Ha4.
  set (b := evaluate s _ _ a _).
  destruct (evaluate_zeroOrNaN s (t s + dt * 0.5) (dt * 0.5) a
              Zx1 Zv1 Zx2 Zv2 Ha1 Ha2 Ha3 Ha4) as (Hb1 & Hb2 & Hb3 & Hb4).
  fold b in Hb1, Hb2, Hb3, Hb4.
  set (c := evaluate s _ _ b _).
  destruct (evaluate_zeroOrNaN s (t s + dt * 0.5) (dt * 0.5) b
              Zx1 Zv1 Zx2 Zv2 Hb1 Hb2 Hb3 Hb4) as (Hc1 & Hc2 & Hc3 & Hc4).
  fold c in Hc1, Hc2, Hc3, Hc4.
  set (d := evaluate s _ _ c _).
  destruct (evaluate_zeroOrNaN s (t s + dt) dt c
              Zx1 Zv1 Zx2 Zv2 Hc1 Hc2 Hc3 Hc4) as (Hd1 & Hd2 & Hd3 & Hd4).
  fold d in Hd1, Hd2, Hd3, Hd4.
  unfold atRestOrNaN; cbn [x1 v1 x2 v2].
  repeat split; (apply restOrNaN_add; [assumption | zeroOrNaN_solve]).
Qed.

Lemma run_atRestOrNaN (n : nat) (s : SimulationState float) (dt : float) :
  atRestOrNaN s -> atRestOrNaN (run n s dt p).
Proof.
  revert s. induction n as [| n IH]; intros s Hs; [exact Hs |].
  cbn [run]. now apply IH, step_atRestOrNaN.
Qed.
End Silent.

(** With forceAmplitude = 0 the positions and velocities do not depend on
    the clock, up to NaN: two states with the same x1, v1, x2 and v2 have,
    after any number of frames, x1 that are equal unless one of them is
    NaN, and likewise v1, x2 and v2, whatever their times, the parameters,
    the time step and [Math.sin] are. *)
Theorem undriven_time_invariance (p : SystemParams float) (dt : float)
    (n : nat) (s s' : SimulationState float) :
  (forceAmplitude p =? 0) = true ->
  x1 s = x1 s' -> v1 s = v1 s' -> x2 s = x2 s' -> v2 s = v2 s' ->
  let r := run n s dt p in
  let r' := run n s' dt p in
  sameUnlessNaN (x1 r) (x1 r') = true /\ sameUnlessNaN (v1 r) (v1 r') = true
  /\ sameUnlessNaN (x2 r) (x2 r') = true
  /\ sameUnlessNaN (v2 r) (v2 r') = true.
Proof.
  intros Hamp Hx1 Hv1 Hx2 Hv2 r r'. rewrite <- isZero_eqb in Hamp.
  assert (Hs : agreeState s s').
  { unfold agreeState. rewrite Hx1, Hv1, Hx2, Hv2.
    repeat split; apply agree_refl. }
  destruct (run_agree p Hamp n s s' dt Hs) as (H1 & H2 & H3 & H4).
  repeat split; now apply sameUnlessNaN_agree.
Qed.

(** Rounding never sets a system at rest in motion: from the initial
    state, with forceAmplitude = 0, each of x1, v1, x2 and v2 is +0 or NaN
    after any number of frames, whatever the parameters, the time step and
    [Math.sin] are. *)
Theorem rest_persists (p : SystemParams float) (dt : float) (n : nat) :
  (forceAmplitude p =? 0) = true ->
  let r := run n initialState dt p in
  (x1 r = 0 \/ x1 r = nan) /\ (v1 r = 0 \/ v1 r = nan)
  /\ (x2 r = 0 \/ x2 r = nan) /\ (v2 r = 0 \/ v2 r = nan).
Proof.
  intros Hamp r. rewrite <- isZero_eqb in Hamp.
  apply (run_atRestOrNaN p Hamp n initialState dt).
  repeat split; now left.
Qed.
End WithSin.

Local Abbreviation frames js_sin := (run (N := FloatNumber js_sin)).
Local Abbreviation rest js_sin := (initialState (N := FloatNumber js_sin)).

(** The same motion started a week later. *)
#[warnings="-inexact-float"]
Definition laterState : SimulationState float :=
  {| t := 604800; x1 := 0.01; v1 := -0.2; x2 := 0.03; v2 := 0.1 |}.

Lemma undriven_time_invariance_witness :
  (forceAmplitude UNDRIVEN_PARAMS =? 0) = true
  /\ forall js_sin : float -> float,
      sameUnlessNaN
        (x1 (frames js_sin 600 movingState PHYSICS_DT UNDRIVEN_PARAMS))
        (x1 (frames js_sin 600 laterState PHYSICS_DT UNDRIVEN_PARAMS)) = true.
Proof.
  split; [reflexivity |]. intro js_sin.
  exact (proj1 (undriven_time_invariance js_sin UNDRIVEN_PARAMS PHYSICS_DT
                  600 movingState laterState eq_refl eq_refl eq_refl
                  eq_refl eq_refl)).
Defined.

Lemma rest_persists_witness :
  (forceAmplitude UNDRIVEN_PARAMS =? 0) = true
  /\ forall js_sin : float -> float,
      let r := frames js_sin 1000 (rest js_sin) PHYSICS_DT UNDRIVEN_PARAMS in
      (x1 r = 0 \/ x1 r = nan) /\ (v2 r = 0 \/ v2 r = nan).
Proof.
  split; [reflexivity |]. intro js_sin.
  destruct (rest_persists js_sin UNDRIVEN_PARAMS PHYSICS_DT 1000 eq_refl)
    as (Hx1 & _ & _ & Hv2).
  split; assumption.
Defined.
End Undriven.


(** ** The chart history of [App.tsx] *)

Module History.
Import ListNotations.

(** [constants.ts]. *)
Definition CHART_HISTORY_LENGTH : nat := 200.

(** The updater passed to [setHistory] in [animate]: append the new sample
    and keep the last [CHART_HISTORY_LENGTH] entries.  The sample object
    (built from the current state) is the argument [item]. *)
Definition pushSample {A : Type} (prev : list A) (item : A) : list A :=
  let newData := prev ++ [item] in
  if CHART_HISTORY_LENGTH <? length newData
  then skipn (length newData - CHART_HISTORY_LENGTH) newData
  else newData.

(** Both branches are the same [slice]. *)
Lemma pushSample_skipn {A : Type} (prev : list A) (item : A) :
  pushSample prev item
  = skipn (length (prev ++ [item]) - CHART_HISTORY_LENGTH) (prev ++ [item]).
Proof.
  unfold pushSample. cbv zeta.
  destruct (CHART_HISTORY_LENGTH <? length (prev ++ [item])) eqn:E;
    [reflexivity |].
  apply Nat.ltb_ge in E.
  replace (length (prev ++ [item]) - CHART_HISTORY_LENGTH) with 0 by lia.
  reflexivity.
Qed.

(** The history never holds more than 200 samples: after an update it has
    one more entry than before, capped at [CHART_HISTORY_LENGTH]. *)
Theorem pushSample_length {A : Type} (prev : list A) (item : A) :
  length (pushSample prev item)
  = Nat.min (S (length prev)) CHART_HISTORY_LENGTH.
Proof.
  rewrite pushSample_skipn, length_skipn, length_app. cbn [length]. lia.
Qed.

(** An update only drops entries from the old end: the new history is a
    suffix of the old one followed by the new sample, and the new sample
    is its last entry. *)
Theorem pushSample_keeps_newest {A : Type} (prev : list A) (item : A) :
  exists dropped kept,
    prev = dropped ++ kept /\ pushSample prev item = kept ++ [item].
Proof.
  rewrite pushSample_skipn, length_app. cbn [length].
  set (k := length prev + 1 - CHART_HISTORY_LENGTH).
  assert (Hk : k <= length prev) by (unfold k, CHART_HISTORY_LENGTH; lia).
  exists (firstn k prev), (skipn k prev). split.
  - symmetry. apply firstn_skipn.
  - rewrite skipn_app.
    replace (k - length prev) with 0 by lia. reflexivity.
Qed.

(** Feeding samples one by one into a history of at most 200 entries
    leaves the last 200 of everything seen, in order. *)
Theorem history_is_last_samples {A : Type} (samples start : list A) :
  length start <= CHART_HISTORY_LENGTH ->
  fold_left pushSample samples start
  = skipn (length (start ++ samples) - CHART_HISTORY_LENGTH)
      (start ++ samples).
Proof.
  revert start. induction samples as [| x xs IH]; intros start Hlen.
  - cbn [fold_left]. rewrite app_nil_r.
    replace (length start - CHART_HISTORY_LENGTH) with 0 by lia.
    reflexivity.
  - cbn [fold_left]. rewrite IH.
    + rewrite pushSample_skipn.
      replace (start ++ x :: xs) with ((start ++ [x]) ++ xs)
        by (rewrite <- app_assoc; reflexivity).
      set (L := start ++ [x]).
      set (k := length L - CHART_HISTORY_LENGTH).
      assert (Happ : skipn k L ++ xs = skipn k (L ++ xs)).
      { rewrite skipn_app. replace (k - length L) with 0 by (unfold k; lia).
        reflexivity. }
      rewrite Happ, skipn_skipn, length_skipn. f_equal.
      rewrite length_app. unfold k. lia.
    + rewrite pushSample_skipn, length_skipn, length_app. cbn [length].
      unfold CHART_HISTORY_LENGTH in *. lia.
Qed.

Lemma history_is_last_samples_witness :
  fold_left pushSample (seq 0 1000) [] = seq 800 200.
Proof.
  rewrite (history_is_last_samples (seq 0 1000) []);
    [| cbn [length]; unfold CHART_HISTORY_LENGTH; lia].
  vm_compute. reflexivity.
Defined.
End History.

(** ** The force quiz of [LearnMode] *)

Module Learn.
Import ListNotations.
Import String.
Local Open Scope string_scope.
Local Open Scope list_scope.

(** [types.ts], [ForceIdentification]; [target] is ['m1' | 'm2']. *)
Inductive Target : Type := m1 | m2.

Record ForceIdentification : Type := {
  id : string;
  name : string;
  target : Target;
  description : string;
  isCorrect : bool;
  selected : bool
}.

(** The state [forceStep] of [LearnMode], of type [1 | 2]. *)
Inductive ForceStep : Type := Step1 | Step2.

(** [f.target === ...] on the two-valued type. *)
Definition Target_eqb (a b : Target) : bool :=
  match a, b with
  | m1, m1 | m2, m2 => true
  | _, _ => false
  end.

(** [forceStep === 1 ? 'm1' : 'm2']. *)
Definition currentTarget (forceStep : ForceStep) : Target :=
  match forceStep with Step1 => m1 | Step2 => m2 end.

Definition INITIAL_FORCES : list ForceIdentification :=
  [ {| id := "k1"; name := "Spring Force k1"; target := m1;
       description :=
         "Restoring force from the main building spring/structure.";
       isCorrect := true; selected := false |};
    {| id := "b1"; name := "Damping Force b1"; target := m1;
       description :=
         "Energy loss due to air bearings/structural friction.";
       isCorrect := true; selected := false |};
    {| id := "k2_on_1"; name := "TMD Spring Force k2 (on M1)"; target := m1;
       description := "The TMD pulling back on the building.";
       isCorrect := true; selected := false |};
    {| id := "b2_on_1"; name := "TMD Damping Force b2 (on M1)";
       target := m1;
       description :=
         "Friction between TMD and building acting on the building.";
       isCorrect := true; selected := false |};
    {| id := "wind"; name := "Wind/Voice Coil Force F(t)"; target := m1;
       description := "External driving force.";
       isCorrect := true; selected := false |};
    {| id := "gravity"; name := "Gravity"; target := m1;
       description := "Vertical force.";
       isCorrect := false; selected := false |};
    {| id := "k2_on_2"; name := "TMD Spring Force k2 (on M2)"; target := m2;
       description := "The building pulling on the TMD.";
       isCorrect := true; selected := false |};
    {| id := "b2_on_2"; name := "TMD Damping b2 (on M2)"; target := m2;
       description := "Friction acting on the TMD.";
       isCorrect := true; selected := false |};
    {| id := "wind_on_2"; name := "Wind Force on TMD"; target := m2;
       description := "Wind hitting the internal mass directly.";
       isCorrect := false; selected := false |} ].

(** The part of the component state the quiz reads and writes. *)
Record LearnState : Type := {
  forces : list ForceIdentification;
  feedback : option string;
  forceStep : ForceStep
}.

Definition initialLearnState : LearnState :=
  {| forces := INITIAL_FORCES; feedback := None; forceStep := Step1 |}.

(** [{ ...f, selected: !f.selected }]. *)
Definition toggled (f : ForceIdentification) : ForceIdentification :=
  {| id := id f; name := name f; target := target f;
     description := description f; isCorrect := isCorrect f;
     selected := negb (selected f) |}.

Definition toggleForce (i : string) (st : LearnState) : LearnState :=
  {| forces := map (fun f => if id f =? i then toggled f else f) (forces st);
     feedback := None;
     forceStep := forceStep st |}.

Definition INCORRECT : string :=
  "Incorrect. Check the FBD. We only care about horizontal forces acting directly on this mass.".

Definition CORRECT : string := "Correct! All relevant forces identified.".

(** [validateForces]: the new state, and whether the 1500 ms timer that
    moves the quiz to step 2 was started. *)
Definition validateForces (st : LearnState) : LearnState * bool :=
  let incorrectSelection :=
    existsb
      (fun f => negb (Bool.eqb (selected f) (isCorrect f))
                && Target_eqb (target f) (currentTarget (forceStep st)))
      (forces st) in
  let missedCorrect :=
    existsb
      (fun f => isCorrect f && negb (selected f)
                && Target_eqb (target f) (currentTarget (forceStep st)))
      (forces st) in
  if incorrectSelection || missedCorrect
  then ({| forces := forces st; feedback := Some INCORRECT;
           forceStep := forceStep st |}, false)
  else ({| forces := forces st; feedback := Some CORRECT;
           forceStep := forceStep st |},
        match forceStep st with Step1 => true | Step2 => false end).

(** The timer's callback: [setForceStep(2); setFeedback(null)]. *)
Definition timerFired (st : LearnState) : LearnState :=
  {| forces := forces st; feedback := None; forceStep := Step2 |}.

(** [currentForces]: the entries the user can click. *)
Definition currentForces (st : LearnState) : list ForceIdentification :=
  filter (fun f => Target_eqb (target f) (currentTarget (forceStep st)))
    (forces st).

Lemma Target_eqb_eq (a b : Target) : Target_eqb a b = true <-> a = b.
Proof. destruct a, b; cbn; split; congruence. Qed.

Lemma toggled_involutive (f : ForceIdentification) : toggled (toggled f) = f.
Proof.
  destruct f as [i n tg d c s]. unfold toggled; cbn.
  now rewrite negb_involutive.
Qed.

Lemma correct_iff (st : LearnState) :
  feedback (fst (validateForces st)) = Some CORRECT
  <-> (forall f, In f (forces st) ->
         target f = currentTarget (forceStep st) ->
         selected f = isCorrect f).
Proof.
  unfold validateForces. cbv zeta.
  set (cur := currentTarget (forceStep st)).
  set (wrong := fun f => negb (Bool.eqb (selected f) (isCorrect f))
                         && Target_eqb (target f) cur).
  set (missed := fun f => isCorrect f && negb (selected f)
                          && Target_eqb (target f) cur).
  assert (Hsub : existsb missed (forces st) = true ->
                 existsb wrong (forces st) = true).
  { intro H. apply existsb_exists in H. destruct H as [f [Hin Hf]].
    apply existsb_exists. exists f. split; [exact Hin |].
    unfold wrong, missed in *.
    destruct (isCorrect f), (selected f), (Target_eqb (target f) cur);
      cbn in *; congruence. }
  destruct (existsb wrong (forces st)) eqn:Ewrong.
  - cbn [orb fst feedback]. split; [discriminate |].
    intro Hall. exfalso.
    apply existsb_exists in Ewrong. destruct Ewrong as [f [Hin Hf]].
    unfold wrong in Hf.
    apply andb_true_iff in Hf. destruct Hf as [Hne Htg].
    apply Target_eqb_eq in Htg.
    rewrite (Hall f Hin Htg) in Hne.
    now rewrite Bool.eqb_reflx in Hne.
  - destruct (existsb missed (forces st)) eqn:Emissed;
      [specialize (Hsub eq_refl); discriminate |].
    cbn [orb fst feedback]. split; [intros _ | reflexivity].
    intros f Hin Htg.
    assert (Hf : wrong f = false).
    { destruct (wrong f) eqn:E; [| reflexivity].
      assert (existsb wrong (forces st) = true)
        by (apply existsb_exists; exists f; split; assumption).
      congruence. }
    unfold wrong in Hf.
    apply Target_eqb_eq in Htg. rewrite Htg, andb_true_r in Hf.
    apply negb_false_iff, Bool.eqb_prop in Hf. exact Hf.
Qed.

Lemma toggle_ids (i : string) (st : LearnState) :
  map id (forces (toggleForce i st)) = map id (forces st).
Proof.
  unfold toggleForce; cbn [forces]. rewrite map_map.
  apply map_ext. intro f. now destruct (id f =? i).
Qed.

Lemma unique_id (l : list ForceIdentification) (f g : ForceIdentification) :
  NoDup (map id l) -> In f l -> In g l -> id g = id f -> g = f.
Proof.
  induction l as [| h l IH]; intros Hnd Hf Hg Hid; [contradiction |].
  cbn [map] in Hnd. inversion Hnd as [| x xs Hnotin Hnd']; subst.
  destruct Hf as [-> | Hf], Hg as [-> | Hg].
  - reflexivity.
  - exfalso. apply Hnotin. rewrite <- Hid. now apply in_map.
  - exfalso. apply Hnotin. rewrite Hid. now apply in_map.
  - now apply IH.
Qed.

Lemma filter_map_frame {A : Type} (keep : A -> bool) (h : A -> A)
    (l : list A) :
  (forall a, keep (h a) = keep a) ->
  (forall a, In a l -> keep a = true -> h a = a) ->
  filter keep (map h l) = filter keep l.
Proof.
  intros Hkeep Hfix. induction l as [| a l IH]; [reflexivity |].
  cbn [map filter]. rewrite Hkeep.
  destruct (keep a) eqn:Ea.
  - rewrite (Hfix a (or_introl eq_refl) Ea). f_equal.
    apply IH. intros b Hb. apply Hfix. now right.
  - apply IH. intros b Hb. apply Hfix. now right.
Qed.

(** *** What the quiz guarantees *)

(** The answer is accepted exactly when every entry of the current body
    is ticked if and only if it is a real force; entries of the other body
    are not looked at.  Checking changes neither the ticks nor the step,
    and the timer that moves on to body 2 starts only on an accepted answer
    at step 1. *)
Theorem validateForces_verdict (st : LearnState) :
  let result := fst (validateForces st) in
  let accepted :=
    forall f, In f (forces st) ->
      target f = currentTarget (forceStep st) ->
      selected f = isCorrect f in
  (feedback result = Some CORRECT <-> accepted)
  /\ (feedback result = Some CORRECT \/ feedback result = Some INCORRECT)
  /\ forces result = forces st
  /\ forceStep result = forceStep st
  /\ (snd (validateForces st) = true
      <-> accepted /\ forceStep st = Step1).
Proof.
  intros result accepted.
  pose proof (correct_iff st) as Hiff. fold result accepted in Hiff.
  split; [exact Hiff |].
  subst result. unfold validateForces in *. cbv zeta in *.
  destruct (_ || _).
  - cbn [fst snd feedback forces forceStep] in *.
    repeat split; auto; try discriminate.
    intros [Hacc _]. apply Hiff in Hacc. discriminate.
  - cbn [fst snd feedback forces forceStep] in *.
    repeat split; auto.
    + now apply Hiff.
    + destruct (forceStep st); [reflexivity | discriminate].
    + intros [_ ->]. reflexivity.
Qed.

(** Clicking an entry twice restores the ticks. *)
Theorem toggleForce_twice (i : string) (st : LearnState) :
  forces (toggleForce i (toggleForce i st)) = forces st.
Proof.
  unfold toggleForce; cbn [forces]. rewrite map_map.
  rewrite <- (map_id (forces st)) at 2.
  apply map_ext. intro f.
  destruct (id f =? i) eqn:E.
  - cbn [toggled id]. rewrite E. apply toggled_involutive.
  - now rewrite E.
Qed.

(** With distinct ids, a click on one of the displayed entries (those of
    the current body) leaves the entries of the other body, and the step,
    as they were. *)
Theorem click_leaves_other_body (st : LearnState) (f : ForceIdentification) :
  NoDup (map id (forces st)) ->
  In f (currentForces st) ->
  let other g :=
    negb (Target_eqb (target g) (currentTarget (forceStep st))) in
  filter other (forces (toggleForce (id f) st)) = filter other (forces st)
  /\ forceStep (toggleForce (id f) st) = forceStep st
  /\ map id (forces (toggleForce (id f) st)) = map id (forces st).
Proof.
  intros Hnd Hf other.
  unfold currentForces in Hf. apply filter_In in Hf.
  destruct Hf as [Hin Hcur].
  split; [| split; [reflexivity | apply toggle_ids]].
  unfold toggleForce; cbn [forces]. apply filter_map_frame.
  - intro g. now destruct (id g =? id f).
  - intros g Hg Hother.
    destruct (id g =? id f) eqn:E; [| reflexivity].
    apply String.eqb_eq in E.
    rewrite (unique_id (forces st) f g Hnd Hin Hg E) in Hother.
    unfold other in Hother. now rewrite Hcur in Hother.
Qed.

Lemma click_leaves_other_body_witness :
  filter (fun g => negb (Target_eqb (target g) m1))
    (forces (toggleForce "wind" initialLearnState))
  = filter (fun g => negb (Target_eqb (target g) m1)) INITIAL_FORCES.
Proof.
  assert (Hnd : NoDup (map id (forces initialLearnState))).
  { cbn. repeat constructor; cbn; intuition discriminate. }
  assert (Hin : In (nth 4 INITIAL_FORCES
                      {| id := EmptyString; name := EmptyString;
                         target := m1; description := EmptyString;
                         isCorrect := false; selected := false |})
                   (currentForces initialLearnState)).
  { cbn. intuition. }
  exact (proj1 (click_leaves_other_body initialLearnState _ Hnd Hin)).
Defined.

(** The quiz as shipped, played through: ticking the five real forces on
    body 1 is accepted and starts the timer; after it fires, ticking the
    two real forces on body 2 is accepted and starts no timer. *)
Example quiz_walkthrough :
  let tick ids st := fold_left (fun st i => toggleForce i st) ids st in
  let step1 :=
    validateForces
      (tick ["k1"; "b1"; "k2_on_1"; "b2_on_1"; "wind"] initialLearnState) in
  let step2 :=
    validateForces (tick ["k2_on_2"; "b2_on_2"] (timerFired (fst step1))) in
  feedback (fst (validateForces initialLearnState)) = Some INCORRECT
  /\ feedback (fst step1) = Some CORRECT /\ snd step1 = true
  /\ feedback (fst step2) = Some CORRECT /\ snd step2 = false.
Proof. vm_compute. repeat split. Qed.
End Learn.

(** ** The 2D schematic: [Spring] and [Mascot2D] *)

Module Schematic.
Import ListNotations.
Local Open Scope R_scope.

(** The square root of the reals ([Math.sqrt]). *)
Local Abbreviation sqrt := R_sqrt.sqrt.

(** [Spring.tsx].  The component returns [null] or one [path] element; the
    path is modelled by the list of its vertices (the [M] point, one [L]
    point per coil, the final [L] point).  [coils] is a count: the callers
    pass 8, 5 or the default 6. *)
Definition Spring (x1 y1 x2 y2 : R) (width : R) (coils : nat) :
    option (list (R * R)) :=
  let dx := x2 - x1 in
  let dy := y2 - y1 in
  let length := sqrt (dx * dx + dy * dy) in
  if Rlt_dec length 10 then None
  else
    let nx := dx / length in
    let ny := dy / length in
    let px := - ny * (width / 2) in
    let py := nx * (width / 2) in
    let step := length / INR coils in
    let bend (i : nat) :=
      let progress := (INR i - 0.5) * step in
      let side := if Nat.even i then 1 else -1 in
      (x1 + nx * progress + px * side, y1 + ny * progress + py * side) in
    Some ((x1, y1) :: map bend (seq 1 coils) ++ [(x2, y2)]).

(** The force indicator of [Mascot2D]: absent, or the opacities of the
    arrow pointing right (first [path]) and of the one pointing left. *)
Record Arrows : Type := { rightOpacity : R; leftOpacity : R }.

Definition forceIndicator (params : SystemParams R)
    (state : SimulationState R) : option Arrows :=
  let s := sin (2 * PI * forceFrequency params * t state) in
  if Rgt_dec (Rabs s) 0.1
  then Some {| rightOpacity := if Rgt_dec s 0 then 1 else 0;
               leftOpacity := if Rlt_dec s 0 then 1 else 0 |}
  else None.

Lemma Spring_None (x1 y1 x2 y2 width : R) (coils : nat) :
  Spring x1 y1 x2 y2 width coils = None
  <-> sqrt ((x2 - x1) * (x2 - x1) + (y2 - y1) * (y2 - y1)) < 10.
Proof.
  unfold Spring. cbv zeta.
  destruct (Rlt_dec _ 10) as [H | H]; split; intro H'; try easy.
Qed.

(** The vertices of a drawn spring: start and end are the two anchors, and
    the i-th bend (1 <= i <= coils) sits at the fraction (i - 1/2) / coils
    of the way along the axis, at distance width / 2 beside it, on
    alternating sides (even bends on one side, odd on the other). *)
Theorem Spring_zigzag (x1 y1 x2 y2 width : R) (coils i : nat)
    (pts : list (R * R)) :
  Spring x1 y1 x2 y2 width coils = Some pts ->
  (1 <= i <= coils)%nat ->
  let dx := x2 - x1 in
  let dy := y2 - y1 in
  let bend := nth i pts (0, 0) in
  List.length pts = (coils + 2)%nat
  /\ nth 0 pts (0, 0) = (x1, y1)
  /\ nth (S coils) pts (0, 0) = (x2, y2)
  /\ (fst bend - x1) * dx + (snd bend - y1) * dy
     = (INR i - 0.5) / INR coils * (dx * dx + dy * dy)
  /\ (snd bend - y1) * dx - (fst bend - x1) * dy
     = (if Nat.even i then 1 else -1) * (width / 2)
       * sqrt (dx * dx + dy * dy).
Proof.
  intros Hsome Hi dx dy bend.
  unfold Spring in Hsome. cbv zeta in Hsome. fold dx dy in Hsome.
  set (L := sqrt (dx * dx + dy * dy)) in *.
  destruct (Rlt_dec L 10) as [Hshort | Hlong]; [discriminate |].
  injection Hsome as Hpts.
  assert (HL0 : L <> 0) by lra.
  assert (HLL : L * L = dx * dx + dy * dy).
  { unfold L. apply sqrt_sqrt.
    pose proof (Rle_0_sqr dx). pose proof (Rle_0_sqr dy).
    unfold Rsqr in *. lra. }
  assert (Hc : INR coils <> 0) by (apply not_0_INR; lia).
  set (f := fun i : nat =>
    (x1 + dx / L * ((INR i - 0.5) * (L / INR coils))
        + - (dy / L) * (width / 2) * (if Nat.even i then 1 else -1),
     y1 + dy / L * ((INR i - 0.5) * (L / INR coils))
        + dx / L * (width / 2) * (if Nat.even i then 1 else -1))) in Hpts.
  assert (Hbend : bend = f i).
  { unfold bend. rewrite <- Hpts.
    destruct i as [| i]; [lia |]. cbn [nth].
    rewrite app_nth1 by (rewrite length_map, length_seq; lia).
    rewrite (nth_indep _ (0, 0) (f 0%nat))
      by (rewrite length_map, length_seq; lia).
    rewrite map_nth, seq_nth by lia. reflexivity. }
  split; [| split; [| split; [| split]]].
  - rewrite <- Hpts. cbn [List.length].
    rewrite length_app, length_map, length_seq. cbn [List.length]. lia.
  - now rewrite <- Hpts.
  - rewrite <- Hpts. cbn [nth].
    rewrite app_nth2 by (rewrite length_map, length_seq; lia).
    rewrite length_map, length_seq, Nat.sub_diag. reflexivity.
  - rewrite Hbend. unfold f; cbn [fst snd].
    replace 0.5 with (/ 2) by lra. field. split; assumption.
  - rewrite Hbend. unfold f; cbn [fst snd].
    transitivity ((if Nat.even i then 1 else -1) * (width / 2)
                  * ((dx * dx + dy * dy) / L)).
    + replace 0.5 with (/ 2) by lra. field. split; assumption.
    + rewrite <- HLL. field. assumption.
Qed.

Lemma Spring_zigzag_witness :
  exists pts, Spring 0 0 30 40 20 5 = Some pts
              /\ nth 2 pts (0, 0) = (1, 18).
Proof.
  assert (Hlen : sqrt ((30 - 0) * (30 - 0) + (40 - 0) * (40 - 0)) = 50).
  { replace ((30 - 0) * (30 - 0) + (40 - 0) * (40 - 0)) with (Rsqr 50)
      by (unfold Rsqr; lra).
    apply sqrt_Rsqr. lra. }
  destruct (Spring 0 0 30 40 20 5) as [pts |] eqn:E.
  - exists pts. split; [reflexivity |].
    destruct (Spring_zigzag 0 0 30 40 20 5 2 pts E ltac:(lia))
      as [_ [_ [_ [Hax Hcross]]]].
    rewrite Hlen in Hcross. cbn [Nat.even INR] in Hax, Hcross.
    destruct (nth 2 pts (0, 0)) as [cx cy]. cbn [fst snd] in *.
    f_equal; lra.
  - exfalso. apply Spring_None in E. rewrite Hlen in E. lra.
Defined.

(** When the force arrow is displayed, exactly one of its two directions
    is opaque, and for a positive amplitude it is the direction of the
    drive force that [evaluate] applies at the state's time. *)
Theorem indicator_follows_drive (params : SystemParams R)
    (state : SimulationState R) (a : Arrows) :
  forceIndicator params state = Some a ->
  forceAmplitude params > 0 ->
  let F :=
    Force (evaluate_locals state (t state) 0 Real.zeroDerivative params) in
  (rightOpacity a = 1 /\ leftOpacity a = 0 /\ F > 0)
  \/ (rightOpacity a = 0 /\ leftOpacity a = 1 /\ F < 0).
Proof.
  intros Hshown Hamp F.
  unfold forceIndicator in Hshown. cbv zeta in Hshown.
  assert (HF : F = forceAmplitude params
                   * sin (2 * PI * forceFrequency params * t state))
    by reflexivity.
  set (s := sin (2 * PI * forceFrequency params * t state)) in *.
  destruct (Rgt_dec (Rabs s) 0.1) as [Habs | Habs]; [| discriminate].
  injection Hshown as <-. cbn [rightOpacity leftOpacity].
  destruct (Rgt_dec s 0) as [Hpos | Hnpos], (Rlt_dec s 0) as [Hneg | Hnneg];
    try lra.
  - left. repeat split; try reflexivity.
    rewrite HF. apply Rmult_gt_0_compat; assumption.
  - right. repeat split; try reflexivity.
    rewrite HF. replace 0 with (forceAmplitude params * 0) by ring.
    apply Rmult_lt_compat_l; lra.
  - exfalso. assert (s = 0) by lra. subst s. rewrite H, Rabs_R0 in Habs. lra.
Qed.

Lemma indicator_follows_drive_witness :
  forceIndicator Real.DEFAULT_PARAMS Real.movingState
  = Some {| rightOpacity := 1; leftOpacity := 0 |}.
Proof.
  assert (Hs : sin (2 * PI * forceFrequency Real.DEFAULT_PARAMS
                    * t Real.movingState) = 1).
  { replace (2 * PI * forceFrequency Real.DEFAULT_PARAMS
             * t Real.movingState) with (PI / 2) by (cbn; lra).
    apply sin_PI2. }
  destruct (forceIndicator Real.DEFAULT_PARAMS Real.movingState)
    as [a |] eqn:E.
  - assert (Hamp : forceAmplitude Real.DEFAULT_PARAMS > 0) by (cbn; lra).
    destruct (indicator_follows_drive Real.DEFAULT_PARAMS Real.movingState
                a E Hamp) as [[Hr [Hl _]] | [_ [_ HF]]].
    + destruct a as [r l]. cbn [rightOpacity leftOpacity] in *.
      now subst.
    + exfalso. change (forceAmplitude Real.DEFAULT_PARAMS
                * sin (2 * PI * forceFrequency Real.DEFAULT_PARAMS
                       * t Real.movingState) < 0) in HF.
      rewrite Hs in HF. cbn in HF. lra.
  - exfalso. unfold forceIndicator in E. cbv zeta in E. rewrite Hs in E.
    destruct (Rgt_dec (Rabs 1) 0.1) as [H | H]; [discriminate |].
    rewrite Rabs_R1 in H. lra.
Defined.
End Schematic.
